(** * pdf_extractor: document-type detection and field extraction

    A shallow embedding of the core of [app.py] / [streamlit.py]:
    the two rule tables [PATTERNS_TYPE_1] and [PATTERNS_TYPE_2], the
    classifier [detect_document_type], the extractor
    [extract_data_by_type] and the batch loop of [process_zip_file].

    The Python runtime pieces the code relies on are modelled next to it:
    [str.strip], [str.split], [str.join], insertion-ordered [dict]s and
    the backtracking search of the [re] module for the pattern syntax the
    two tables use. *)

From Stdlib Require Import List String Ascii NArith Bool Arith Lia.
Import ListNotations.

Local Open Scope list_scope.

(** ** Python strings *)

(** A Python [str] is a sequence of Unicode code points. *)
Definition pystr := list N.

(** The text of a raw literal [r"..."]: every character stands for itself. *)
Definition raw (s : string) : pystr :=
  map N_of_ascii (list_ascii_of_string s).

(** The text of an ordinary literal ["..."]: the escapes [\n], [\t] and
    [\\] are interpreted. *)
Fixpoint unescape (s : string) : pystr :=
  match s with
  | EmptyString => []
  | String "\" (String "n" s') => 10%N :: unescape s'
  | String "\" (String "t" s') => 9%N :: unescape s'
  | String "\" (String "\" s') => 92%N :: unescape s'
  | String c s' => N_of_ascii c :: unescape s'
  end.

Definition py (s : string) : pystr := unescape s.

Fixpoint pystr_eqb (a b : pystr) : bool :=
  match a, b with
  | [], [] => true
  | c :: a', d :: b' => N.eqb c d && pystr_eqb a' b'
  | _, _ => false
  end.

(** [Py_UNICODE_ISSPACE]: the characters [str.isspace], [str.strip],
    [str.split] and the pattern class [\s] all agree on. *)
Definition isspace (c : N) : bool :=
  ((9 <=? c) && (c <=? 13) || (28 <=? c) && (c <=? 32)
   || (c =? 133) || (c =? 160) || (c =? 5760)
   || (8192 <=? c) && (c <=? 8202)
   || (c =? 8232) || (c =? 8233) || (c =? 8239) || (c =? 8287)
   || (c =? 12288))%N.

(** [str.lstrip()], [str.rstrip()], [str.strip()] without argument. *)
Fixpoint lstrip (s : pystr) : pystr :=
  match s with
  | c :: s' => if isspace c then lstrip s' else s
  | [] => []
  end.

Definition rstrip (s : pystr) : pystr := rev (lstrip (rev s)).

Definition strip (s : pystr) : pystr := rstrip (lstrip s).

(** [str.split()] without argument: the maximal runs of non-whitespace
    characters, in order; [word] is the run being read. *)
Fixpoint split_from (word : pystr) (s : pystr) : list pystr :=
  match s with
  | [] => match word with [] => [] | _ => [word] end
  | c :: s' =>
      if isspace c
      then match word with
           | [] => split_from [] s'
           | _ => word :: split_from [] s'
           end
      else split_from (word ++ [c]) s'
  end.

Definition split (s : pystr) : list pystr := split_from [] s.

(** [sep.join(words)]. *)
Fixpoint join (sep : pystr) (words : list pystr) : pystr :=
  match words with
  | [] => []
  | [w] => w
  | w :: ws => w ++ sep ++ join sep ws
  end.

(** ** Python values, exceptions and dictionaries *)

Inductive value :=
| PyNone
| PyStr (s : pystr).

Definition value_eqb (a b : value) : bool :=
  match a, b with
  | PyNone, PyNone => true
  | PyStr x, PyStr y => pystr_eqb x y
  | _, _ => false
  end.

(** A [dict] with string keys: insertion-ordered, one entry per key. *)
Definition dict := list (string * value).

Fixpoint setitem (d : dict) (k : string) (v : value) : dict :=
  match d with
  | [] => [(k, v)]
  | (k', v') :: d' =>
      if String.eqb k' k then (k', v) :: d' else (k', v') :: setitem d' k v
  end.

Fixpoint getitem (d : dict) (k : string) : option value :=
  match d with
  | [] => None
  | (k', v') :: d' => if String.eqb k' k then Some v' else getitem d' k
  end.

Definition keys (d : dict) : list string := map fst d.

(** ** Regular expressions: the syntax used by the rule tables *)

(** One member of a character class. *)
Inductive citem :=
| IChar (c : N)      (* a literal character *)
| ISpace             (* [\s] *)
| INotSpace.         (* [\S] *)

(** Something that matches exactly one character. *)
Inductive atom :=
| ALit (c : N)                                (* a literal character *)
| AIn (negate : bool) (items : list citem).   (* [...], [^...], \s, \S *)

Inductive regex :=
| REmpty
| RAtom (a : atom)
| RPlus (greedy : bool) (a : atom)   (* a+ and a+? *)
| RSeq (r1 r2 : regex)
| RGroup (r : regex)                 (* ( ... ), the capturing group *)
| RLook (r : regex).                 (* (?= ... ) *)

(** [re.compile]: a compiled pattern knows how many groups it has. *)
Record Pattern := { p_regex : regex; p_groups : nat }.

Definition is_punct (c : ascii) : bool :=
  let n := N_of_ascii c in
  ((33 <=? n) && (n <=? 47) || (58 <=? n) && (n <=? 64)
   || (91 <=? n) && (n <=? 96) || (123 <=? n) && (n <=? 126))%N.

Definition is_special (c : ascii) : bool :=
  existsb (Ascii.eqb c)
    ["."; "^"; "$"; "*"; "+"; "?"; "{"; "}"; "["; "]"; "\"; "|"; "("; ")"]%char.

(** An escape [\c] outside or inside a class. *)
Definition parse_escape (c : ascii) : option citem :=
  if (c =? "s")%char then Some ISpace
  else if (c =? "S")%char then Some INotSpace
  else if (c =? "n")%char then Some (IChar 10)
  else if (c =? "t")%char then Some (IChar 9)
  else if is_punct c then Some (IChar (N_of_ascii c))
  else None.

Definition atom_of_item (i : citem) : atom :=
  match i with
  | IChar c => ALit c
  | _ => AIn false [i]
  end.

Inductive token :=
| TAtom (a : atom)        (* a one-character matcher *)
| TPlus (greedy : bool)   (* [+] and [+?] *)
| TOpen                   (* [(] *)
| TLookahead              (* [(?=] *)
| TClose.                 (* [)] *)

Definition emit (t : token) (rest : option (list token)) : option (list token) :=
  match rest with
  | Some ts => Some (t :: ts)
  | None => None
  end.

(** The tokens of a pattern.  [cls] holds the members read so far, in
    reverse, while inside a class [[...]] or [[^...]].  Ranges are not
    part of the modelled syntax. *)
Fixpoint lex (cls : option (bool * list citem)) (s : string)
  : option (list token) :=
  match s with
  | EmptyString =>
      match cls with
      | None => Some []
      | Some _ => None
      end
  | String c s1 =>
      match cls with
      | Some (negate, items) =>
          if (c =? "]")%char then
            match items with
            | [] => None
            | _ => emit (TAtom (AIn negate (rev items))) (lex None s1)
            end
          else if (c =? "\")%char then
            match s1 with
            | String e s2 =>
                match parse_escape e with
                | Some i => lex (Some (negate, i :: items)) s2
                | None => None
                end
            | EmptyString => None
            end
          else if (c =? "-")%char then None
          else lex (Some (negate, IChar (N_of_ascii c) :: items)) s1
      | None =>
          if (c =? "\")%char then
            match s1 with
            | String e s2 =>
                match parse_escape e with
                | Some i => emit (TAtom (atom_of_item i)) (lex None s2)
                | None => None
                end
            | EmptyString => None
            end
          else if (c =? "[")%char then
            match s1 with
            | String e s2 =>
                if (e =? "^")%char then lex (Some (true, [])) s2
                else lex (Some (false, [])) s1
            | EmptyString => None
            end
          else if (c =? "(")%char then
            match s1 with
            | String q s2 =>
                if (q =? "?")%char then
                  match s2 with
                  | String e s3 =>
                      if (e =? "=")%char then emit TLookahead (lex None s3)
                      else None
                  | EmptyString => None
                  end
                else emit TOpen (lex None s1)
            | EmptyString => None
            end
          else if (c =? ")")%char then emit TClose (lex None s1)
          else if (c =? "+")%char then
            match s1 with
            | String q s2 =>
                if (q =? "?")%char then emit (TPlus false) (lex None s2)
                else emit (TPlus true) (lex None s1)
            | EmptyString => Some [TPlus true]
            end
          else if is_special c then None
          else emit (TAtom (ALit (N_of_ascii c))) (lex None s1)
      end
  end.

(** A sequence of items up to the end of the pattern or an unmatched
    closing parenthesis, which is left in the rest.  The result carries
    the number of capturing groups read. *)
Fixpoint parse_seq (fuel : nat) (ts : list token)
  : option (regex * nat * list token) :=
  match fuel with
  | O => None
  | S fuel' =>
      match ts with
      | [] => Some (REmpty, 0, ts)
      | TClose :: _ => Some (REmpty, 0, ts)
      | TLookahead :: ts1 =>
          match parse_seq fuel' ts1 with
          | Some (body, n1, TClose :: ts2) =>
              match parse_seq fuel' ts2 with
              | Some (tl, n2, ts3) => Some (RSeq (RLook body) tl, n1 + n2, ts3)
              | None => None
              end
          | _ => None
          end
      | TOpen :: ts1 =>
          match parse_seq fuel' ts1 with
          | Some (body, n1, TClose :: ts2) =>
              match parse_seq fuel' ts2 with
              | Some (tl, n2, ts3) =>
                  Some (RSeq (RGroup body) tl, S (n1 + n2), ts3)
              | None => None
              end
          | _ => None
          end
      | TAtom a :: TPlus greedy :: ts2 =>
          match parse_seq fuel' ts2 with
          | Some (tl, n, ts3) => Some (RSeq (RPlus greedy a) tl, n, ts3)
          | None => None
          end
      | TAtom a :: ts1 =>
          match parse_seq fuel' ts1 with
          | Some (tl, n, ts3) => Some (RSeq (RAtom a) tl, n, ts3)
          | None => None
          end
      | TPlus _ :: _ => None
      end
  end.

(** [re.compile] on the modelled syntax: literals, escapes, classes, the
    quantifiers [+] and [+?] on one-character matchers, at most one
    capturing group and look-ahead.  [None] stands for [re.error] (or a
    pattern outside this syntax). *)
Definition compile (pattern : string) : option Pattern :=
  match lex None pattern with
  | Some ts =>
      match parse_seq (S (List.length ts)) ts with
      | Some (r, n, []) =>
          if n <=? 1 then Some {| p_regex := r; p_groups := n |} else None
      | _ => None
      end
  | None => None
  end.

(** ** Regular expressions: backtracking search *)

Definition item_match (i : citem) (c : N) : bool :=
  match i with
  | IChar d => N.eqb c d
  | ISpace => isspace c
  | INotSpace => negb (isspace c)
  end.

Definition atom_match (a : atom) (c : N) : bool :=
  match a with
  | ALit d => N.eqb c d
  | AIn negate items => xorb negate (existsb (fun i => item_match i c) items)
  end.

(** A matcher state: the input still to be read and the text of group 1
    when the group has been closed. *)
Definition mstate := (pystr * option pystr)%type.
Definition cont := pystr -> option pystr -> option mstate.

(** [a+]: as many as possible first, giving back one at a time. *)
Fixpoint plus_greedy (a : atom) (s : pystr) (g : option pystr) (k : cont)
  : option mstate :=
  match s with
  | c :: s' =>
      if atom_match a c
      then match plus_greedy a s' g k with
           | Some res => Some res
           | None => k s' g
           end
      else None
  | [] => None
  end.

(** [a+?]: as few as possible first, taking one more at a time. *)
Fixpoint plus_lazy (a : atom) (s : pystr) (g : option pystr) (k : cont)
  : option mstate :=
  match s with
  | c :: s' =>
      if atom_match a c
      then match k s' g with
           | Some res => Some res
           | None => plus_lazy a s' g k
           end
      else None
  | [] => None
  end.

(** Match [r] at the head of [s], then continue with [k]; the first
    success in the order of the backtracking search is returned. *)
Fixpoint rmatch (r : regex) (s : pystr) (g : option pystr) (k : cont)
  : option mstate :=
  match r with
  | REmpty => k s g
  | RAtom a =>
      match s with
      | c :: s' => if atom_match a c then k s' g else None
      | [] => None
      end
  | RPlus true a => plus_greedy a s g k
  | RPlus false a => plus_lazy a s g k
  | RSeq r1 r2 => rmatch r1 s g (fun s' g' => rmatch r2 s' g' k)
  | RGroup r1 =>
      rmatch r1 s g
        (fun s' _ => k s' (Some (firstn (List.length s - List.length s') s)))
  | RLook r1 =>
      match rmatch r1 s g (fun s' g' => Some (s', g')) with
      | Some (_, g') => k s g'
      | None => None
      end
  end.

Definition accept : cont := fun s g => Some (s, g).

(** A match object. *)
Record Match := {
  m_start : nat;
  m_end : nat;
  m_groups : nat;
  m_group1 : option pystr
}.

(** Try every start position from left to right, the end of the text
    included. *)
Fixpoint search_from (p : Pattern) (i : nat) (s : pystr) : option Match :=
  match rmatch (p_regex p) s None accept with
  | Some (s', g) =>
      Some {| m_start := i; m_end := i + (List.length s - List.length s');
              m_groups := p_groups p; m_group1 := g |}
  | None =>
      match s with
      | [] => None
      | _ :: s' => search_from p (S i) s'
      end
  end.

Definition search (p : Pattern) (text : pystr) : option Match :=
  search_from p 0 text.

(** ** Effects: exceptions and the state of the application *)

Inductive exn :=
| re_error          (* the pattern does not compile *)
| IndexError        (* [group(1)] on a pattern without group *)
| AttributeError    (* a [str] method called on [None] *)
| ReadError (message : pystr).
                    (* raised by [zipfile] or [pypdfium2] on bytes they cannot read *)

Inductive outcome (A : Type) :=
| Return (a : A)
| Raise (e : exn).

Arguments Return {A} a.
Arguments Raise {A} e.

(** What the application keeps between two runs of the script
    ([st.session_state]). *)
Record world := {
  last_uploaded : option pystr;
  processed_data : option (list dict * list dict)
}.

Definition Py (A : Type) : Type := world -> outcome A * world.

Definition ret {A} (a : A) : Py A := fun w => (Return a, w).

Definition raise {A} (e : exn) : Py A := fun w => (Raise e, w).

Definition bind {A B} (c : Py A) (f : A -> Py B) : Py B :=
  fun w =>
    match c w with
    | (Return a, w') => f a w'
    | (Raise e, w') => (Raise e, w')
    end.

Notation "x <- c ;; k" := (bind c (fun x => k))
  (at level 61, c at next level, right associativity).

(** A [for] loop over [l] whose body updates the local state [st]. *)
Fixpoint for_each {A S : Type} (l : list A) (st : S) (body : S -> A -> Py S)
  : Py S :=
  match l with
  | [] => ret st
  | x :: l' => st' <- body st x ;; for_each l' st' body
  end.

(** [re.search(pattern, text)]. *)
Definition re_search (pattern : string) (text : pystr) : Py (option Match) :=
  match compile pattern with
  | Some p => ret (search p text)
  | None => raise re_error
  end.

(** [match.group(1)]. *)
Definition group1 (m : Match) : Py value :=
  if m_groups m <? 1 then raise IndexError
  else ret (match m_group1 m with Some s => PyStr s | None => PyNone end).

(** [value.strip()]. *)
Definition str_strip (v : value) : Py pystr :=
  match v with
  | PyStr s => ret (strip s)
  | PyNone => raise AttributeError
  end.

(** ** The program *)

Definition PATTERNS_TYPE_1 : list (string * string) :=
  [ ("Inspection", "([^\n]+)(?=\s+Store ID and Name)");
    ("Store ID and Name", "Store ID and Name\s+([\s\S]+?)\s+Tracker");
    ("Tracker", "Tracker\s+([\s\S]+?)\s+Inspector");
    ("Inspector", "Inspector\s+([^\n]+)");
    ("Project Team PIC", "Project Team PIC\s+([^\n]+)");
    ("Project Team Present", "Project Team Present\s+([^\n]+)");
    ("Contractor PIC", "Contractor PIC\s+([^\n]+)");
    ("Contractor Present", "Contractor Present\s+([^\n]+)");
    ("Issue Date", "Issue Date\s+([^\n]+)");
    ("Inspection Date", "Inspection Date\s+([^\n]+)");
    ("Report Date", "Report Date\s+([^\n]+)");
    ("Handover Date", "Handover Date\s+([^\n]+)") ]%string.

Definition PATTERNS_TYPE_2 : list (string * string) :=
  [ ("Document No.", "Document No\.\s+([^\n]+)");
    ("Audit Title", "Audit Title\s+([^\n]+)");
    ("Site Name", "Site Name\s+([^\n]+)");
    ("Location", "Location\s+([\s\S]+?)\s+Contractor Present");
    ("Contractor Present", "Contractor Present\s+([^\n]+)");
    ("Contractor Name", "Contractor Present\s+[^\n]+\s+Name\s+([^\n]+)");
    ("Project PIC Present", "Project PIC Present\s+([^\n]+)");
    ("Project PIC Name", "Project PIC Present\s+[^\n]+\s+Name\s+([^\n]+)");
    ("Inspected by", "Inspected by\s+([^\n]+)");
    ("Inspection Date", "Inspection Date\s+([^\n]+)");
    ("Prepared by", "Prepared by\s+([^\n]+)") ]%string.

Definition type_1 : value := PyStr (py "type_1").
Definition type_2 : value := PyStr (py "type_2").

Definition detect_document_type (text : pystr) : Py value :=
  m <- re_search "Document No\." text ;;
  match m with
  | Some _ => ret type_2
  | None =>
      m' <- re_search "Store ID and Name" text ;;
      match m' with
      | Some _ => ret type_1
      | None => ret PyNone
      end
  end.

Definition extract_data_by_type (text : pystr) (doc_type : value) : Py dict :=
  let patterns :=
    if value_eqb doc_type type_1 then PATTERNS_TYPE_1 else PATTERNS_TYPE_2 in
  data <- for_each patterns [] (fun data '(field, pattern) =>
    m <- re_search pattern text ;;
    match m with
    | Some mt =>
        g <- group1 mt ;;
        value <- str_strip g ;;
        let value := join (py " ") (split value) in
        ret (setitem data field (PyStr value))
    | None => ret (setitem data field PyNone)
    end) ;;
  ret (setitem data "Document Type" doc_type).

(** What [z.read] and [extract_text_from_first_page] make of an archive
    entry: the text of its first page, or the exception one of them
    raises, with its message. *)
Inductive page :=
| Readable (text : pystr)
| Unreadable (message : pystr).

(** An archive: its entries in the order of [namelist()]. *)
Definition zip_file := list (pystr * page).

(** The uploaded bytes: an archive, or bytes on which [zipfile.ZipFile]
    raises. *)
Inductive upload :=
| Zip (z : zip_file)
| BadZip (message : pystr).

Definition namelist (z : zip_file) : list pystr := map fst z.

Fixpoint find_entry (z : zip_file) (name : pystr) : option page :=
  match z with
  | [] => None
  | (n, p) :: z' =>
      match find_entry z' name with
      | Some q => Some q
      | None => if pystr_eqb n name then Some p else None
      end
  end.

(** [z.read(name)]: the entry is found by its name, the last one of
    that name when several entries share it; a name that is not in the
    archive raises [KeyError]. *)
Definition z_read (z : zip_file) (name : pystr) : page :=
  match find_entry z name with
  | Some p => p
  | None => Unreadable (py "KeyError")
  end.

Definition extract_text_from_first_page (pdf_bytes : page) : Py pystr :=
  match pdf_bytes with
  | Readable text => ret text
  | Unreadable message => raise (ReadError message)
  end.

(** [s.endswith(suffix)]: the last [len(suffix)] characters of [s] are
    [suffix]. *)
Definition endswith (s suffix : pystr) : bool :=
  pystr_eqb (skipn (List.length s - List.length suffix) s) suffix.

(** The loop of [process_zip_file] over the names in [pdf_files], each
    with the bytes [z.read] gives for it.  Nothing catches what reading
    an entry raises. *)
Definition process_pdf_files (pdf_files : list (pystr * page))
  : Py (list dict * list dict) :=
  for_each pdf_files ([], []) (fun '(all_data_type_1, all_data_type_2) '(pdf_name, pdf_bytes) =>
    text <- extract_text_from_first_page pdf_bytes ;;
    doc_type <- detect_document_type text ;;
    match doc_type with
    | PyNone => ret (all_data_type_1, all_data_type_2)
    | _ =>
        data <- extract_data_by_type text doc_type ;;
        let data := setitem data "Source File" (PyStr pdf_name) in
        if value_eqb doc_type type_1
        then ret (all_data_type_1 ++ [data], all_data_type_2)
        else ret (all_data_type_1, all_data_type_2 ++ [data])
    end).

(** [process_zip_file(uploaded_zip_bytes)].  [lower] stands for
    [str.lower]; the results below hold whatever function it is. *)
Definition process_zip_file (lower : pystr -> pystr)
  (uploaded_zip_bytes : upload) : Py (list dict * list dict) :=
  match uploaded_zip_bytes with
  | BadZip message => raise (ReadError message)
  | Zip z =>
      let pdf_files :=
        filter (fun f => endswith (lower f) (py ".pdf")) (namelist z) in
      process_pdf_files
        (map (fun pdf_name => (pdf_name, z_read z pdf_name)) pdf_files)
  end.

(** ** Specification vocabulary *)

(** [l] is a prefix of [s]. *)
Fixpoint starts_with (l s : pystr) : bool :=
  match l, s with
  | [], _ => true
  | c :: l', d :: s' => N.eqb c d && starts_with l' s'
  | _ :: _, [] => false
  end.

(** [l in s]: the text [s] contains the literal [l]. *)
Fixpoint contains (l s : pystr) : bool :=
  starts_with l s ||
  match s with
  | [] => false
  | _ :: s' => contains l s'
  end.

(** The whitespace normalisation applied to a captured value. *)
Definition normalize (v : pystr) : pystr := join (py " ") (split (strip v)).



(** The rule table a [doc_type] selects. *)
Definition patterns_of (doc_type : value) : list (string * string) :=
  if value_eqb doc_type type_1 then PATTERNS_TYPE_1 else PATTERNS_TYPE_2.

(** What one rule stores for its field. *)
Definition rule_value (pattern : string) (text : pystr) : value :=
  match compile pattern with
  | Some p =>
      match search p text with
      | Some m =>
          match m_group1 m with
          | Some g => PyStr (normalize g)
          | None => PyNone
          end
      | None => PyNone
      end
  | None => PyNone
  end.

(** The declarative reading of a pattern: [Matches r s g s' g'] when [r]
    can read a prefix of [s] leaving [s'], turning the group text [g]
    into [g']. *)
Inductive Matches : regex -> pystr -> option pystr -> pystr -> option pystr -> Prop :=
| M_empty s g : Matches REmpty s g s g
| M_atom a c s g :
    atom_match a c = true -> Matches (RAtom a) (c :: s) g s g
| M_plus greedy a u s g :
    u <> [] -> forallb (atom_match a) u = true ->
    Matches (RPlus greedy a) (u ++ s) g s g
| M_seq r1 r2 s g s1 g1 s2 g2 :
    Matches r1 s g s1 g1 -> Matches r2 s1 g1 s2 g2 ->
    Matches (RSeq r1 r2) s g s2 g2
| M_group r s g s' g' :
    Matches r s g s' g' ->
    Matches (RGroup r) s g s' (Some (firstn (List.length s - List.length s') s))
| M_look r s g s' g' :
    Matches r s g s' g' -> Matches (RLook r) s g s g'.

(** The group is closed on every path through [r]. *)
Fixpoint sets_group (r : regex) : bool :=
  match r with
  | RGroup _ => true
  | RSeq r1 r2 => sets_group r1 || sets_group r2
  | RLook r1 => sets_group r1
  | _ => false
  end.

(** [r] begins with the literal [l]. *)
Fixpoint begins_with (l : pystr) (r : regex) : bool :=
  match l with
  | [] => true
  | c :: l' =>
      match r with
      | RSeq (RAtom (ALit d)) r2 => N.eqb c d && begins_with l' r2
      | _ => false
      end
  end.

(** The literal [l] stands somewhere on the one path through [r]. *)
Fixpoint requires (l : pystr) (r : regex) : bool :=
  begins_with l r ||
  match r with
  | RSeq r1 r2 => requires l r1 || requires l r2
  | RGroup r1 => requires l r1
  | RLook r1 => requires l r1
  | _ => false
  end.

(** The pattern that reads the literal [l] and then [r]. *)
Definition lit_then (l : pystr) (r : regex) : regex :=
  fold_right (fun c r' => RSeq (RAtom (ALit c)) r') r l.

(** [if re.search(...)]: a match object is true, [None] is false. *)
Definition matched (m : option Match) : bool :=
  match m with Some _ => true | None => false end.

(** No name occurs twice in [l]. *)
Fixpoint distinct (l : list string) : bool :=
  match l with
  | [] => true
  | x :: l' => negb (existsb (String.eqb x) l') && distinct l'
  end.

(** A rule whose pattern compiles, has its one group, and closes it on
    every match. *)
Definition rule_ok (pattern : string) : bool :=
  match compile pattern with
  | Some p => (p_groups p =? 1) && sets_group (p_regex p)
  | None => false
  end.

(** A table of such rules whose field names differ from one another
    and from the two metadata keys. *)
Definition table_ok (tbl : list (string * string)) : bool :=
  forallb rule_ok (map snd tbl)
  && distinct (map fst tbl ++ ["Document Type"; "Source File"]%string).

(** The record of a text: one entry per rule in the order of the table,
    then the document type. *)
Definition record_of (text : pystr) (doc_type : value) : dict :=
  map (fun '(field, pattern) => (field, rule_value pattern text))
      (patterns_of doc_type)
  ++ [("Document Type"%string, doc_type)].

(** The pattern cannot match without the literal [l] in the text. *)
Definition needs (l : pystr) (pattern : string) : bool :=
  match compile pattern with
  | Some p => requires l (p_regex p)
  | None => true
  end.

(** No field name of the selected rule set occurs in the text. *)
Definition label_free (doc_type : value) (text : pystr) : bool :=
  forallb (fun field => negb (contains (raw field) text))
          (map fst (patterns_of doc_type)).

(** A text without any ASCII letter: binary garbage, digits,
    punctuation, the empty text. *)
Definition is_letter (c : N) : bool :=
  ((65 <=? c) && (c <=? 90) || (97 <=? c) && (c <=? 122))%N.

Definition non_textual (text : pystr) : bool :=
  forallb (fun c => negb (is_letter c)) text.

(** Every field name of the table begins with a letter. *)
Definition lettered (tbl : list (string * string)) : bool :=
  forallb (fun field => match raw field with
                        | c :: _ => is_letter c
                        | [] => false
                        end)
          (map fst tbl).

(** Every rule is anchored on a field name of its own table. *)
Definition anchored (tbl : list (string * string)) : bool :=
  forallb (fun '(_, pattern) =>
             existsb (fun field => needs (raw field) pattern) (map fst tbl))
          tbl.

(** The keys of a record of the batch result. *)
Definition columns (tbl : list (string * string)) : list string :=
  map fst tbl ++ ["Document Type"; "Source File"]%string.

(** ** Pages used in the scenarios *)

(** A store inspection report. *)
Definition store_inspection_page : pystr :=
  py "Jane Doe\nStore ID and Name\n001 - Main St\nTracker\nINS-2024\nInspector\nJohn Smith".

(** ** Whitespace and lines *)


(** [v] does not begin with whitespace. *)
Definition clean_head (v : pystr) : Prop :=
  match v with
  | [] => True
  | c :: _ => isspace c = false
  end.

(** The repetition of [a] cannot go on at the head of [s]. *)
Definition stops (a : atom) (s : pystr) : bool :=
  match s with
  | [] => true
  | c :: _ => negb (atom_match a c)
  end.

(** [\s] and [[^\n]]. *)
Definition sp : atom := AIn false [ISpace].
Definition not_nl : atom := AIn true [IChar 10].

(** [([^\n]+)] at the end of a pattern. *)
Definition line_group : regex :=
  RSeq (RGroup (RSeq (RPlus true not_nl) REmpty)) REmpty.

(** [label\s+([^\n]+)]. *)
Definition single_line (label : pystr) : regex :=
  lit_then label (RSeq (RPlus true sp) line_group).

(** [label\s+[^\n]+\s+Name\s+([^\n]+)]. *)
Definition compound (label : pystr) : regex :=
  lit_then label
    (RSeq (RPlus true sp)
       (RSeq (RPlus true not_nl)
          (RSeq (RPlus true sp)
             (lit_then (py "Name") (RSeq (RPlus true sp) line_group))))).

(** A run of whitespace, a run without line break, and a text that is
    over or goes on with a line break. *)
Definition spaces (w : pystr) : Prop :=
  w <> [] /\ forallb isspace w = true.

Definition one_line (t : pystr) : Prop :=
  t <> [] /\ forallb (fun c => negb (c =? 10)%N) t = true.

Definition line_end (s : pystr) : Prop :=
  match s with
  | [] => True
  | c :: _ => c = 10%N
  end.

(** The text holds [label], a first line [t], the label [Name] and the
    line [g] up to its end, each separated by whitespace; [v] is [g]
    normalised. *)
Definition compound_shape (label text v : pystr) : Prop :=
  exists a w1 t w2 w3 g rest,
    text = a ++ label ++ w1 ++ t ++ w2 ++ py "Name" ++ w3 ++ g ++ rest /\
    spaces w1 /\ one_line t /\ spaces w2 /\ spaces w3 /\ one_line g /\
    line_end rest /\ v = normalize g.

(** No proper suffix of [l] is a prefix of [l]: two occurrences of [l]
    cannot overlap. *)
Definition border_free (l : pystr) : bool :=
  forallb (fun k => negb (starts_with (skipn k l) l))
          (seq 1 (List.length l - 1)).

(** A page of bytes that are not text. *)
Definition garbage_page : pystr :=
  [0; 255; 27; 49; 50; 10; 137; 32; 32; 1; 46; 12288]%N.


(** The contractor section of an audit report, the head of such a
    report, a report with two contractor sections and one whose
    contractor name is longer. *)
Definition contractor_block : pystr :=
  py "Contractor Present\nYes\nName\nAcme Co".

Definition audit_page_head : pystr :=
  py "Document No.\nDOC-55\nAudit Title\nQ1 Review\nLocation\nYard 3, Bay 2\n".

Definition two_sections_page : pystr :=
  py "Contractor Present\nNo\nName\nBob\nContractor Present\nYes\nName\nAcme Co".

Definition longer_line_page : pystr :=
  py "Contractor Present\nYes\nName\nAcme Co Ltd".

(** ** The batch result, declaratively *)

(** The type the two marker tests give a text. *)
Definition doc_type_of (text : pystr) : value :=
  if contains (py "Document No.") text then type_2
  else if contains (py "Store ID and Name") text then type_1
  else PyNone.

(** The record of one archive entry, given by its name and its text. *)
Definition entry_record (doc_type : value) (entry : pystr * pystr) : dict :=
  record_of (snd entry) doc_type
  ++ [("Source File"%string, PyStr (fst entry))].

Definition has_type (doc_type : value) (entry : pystr * pystr) : bool :=
  value_eqb (doc_type_of (snd entry)) doc_type.

(** The records of the entries of one type, in the order of the
    archive. *)
Definition bucket (doc_type : value) (pdf_files : list (pystr * pystr))
  : list dict :=
  map (entry_record doc_type) (filter (has_type doc_type) pdf_files).

(** The names the loop goes through, each with what reading it gives. *)
Definition pdf_names (lower : pystr -> pystr) (z : zip_file) : list pystr :=
  filter (fun f => endswith (lower f) (py ".pdf")) (namelist z).

Definition listing (lower : pystr -> pystr) (z : zip_file)
  : list (pystr * page) :=
  map (fun pdf_name => (pdf_name, z_read z pdf_name)) (pdf_names lower z).

(** The entries that could be read, with their text. *)
Definition readable (pdf_files : list (pystr * page)) : list (pystr * pystr) :=
  flat_map (fun '(pdf_name, p) =>
              match p with
              | Readable text => [(pdf_name, text)]
              | Unreadable _ => []
              end) pdf_files.

(** The message of the first entry that cannot be read. *)
Fixpoint first_failure (pdf_files : list (pystr * page)) : option pystr :=
  match pdf_files with
  | [] => None
  | (_, Unreadable message) :: _ => Some message
  | (_, Readable _) :: rest => first_failure rest
  end.

(** Entries that can all be read. *)
Definition as_pages (pdf_files : list (pystr * pystr)) : list (pystr * page) :=
  map (fun entry => (fst entry, Readable (snd entry))) pdf_files.

(** What [process_zip_file] comes to. *)
Definition batch_outcome (lower : pystr -> pystr) (uploaded_zip_bytes : upload)
  : outcome (list dict * list dict) :=
  match uploaded_zip_bytes with
  | BadZip message => Raise (ReadError message)
  | Zip z =>
      match first_failure (listing lower z) with
      | Some message => Raise (ReadError message)
      | None =>
          Return (bucket type_1 (readable (listing lower z)),
                  bucket type_2 (readable (listing lower z)))
      end
  end.

(** [str.lower] on ASCII letters. *)
Definition ascii_lower (s : pystr) : pystr :=
  map (fun c => if (65 <=? c) && (c <=? 90) then c + 32 else c)%N s.

(** An archive of four entries: a store inspection, a text file, a page
    without marker and the head of an audit. *)
Definition sample_zip : zip_file :=
  [(py "store.pdf", Readable store_inspection_page);
   (py "notes.txt", Unreadable (py "not a PDF"));
   (py "blank.PDF", Readable garbage_page);
   (py "audit.pdf", Readable audit_page_head)].

(** The same archive with an entry that cannot be read. *)
Definition broken_zip : zip_file :=
  sample_zip ++ [(py "broken.pdf", Unreadable (py "Failed to load document"))].

(** ** Labels a rule cannot do without *)

(** For each rule, the literals of its pattern: its own label, and for
    the bounded captures the label that closes them, for [Inspection]
    the marker it looks ahead to, for the compound rules the section
    label and [Name]. *)
Definition labels_needed (doc_type : value) : list (string * string) :=
  if value_eqb doc_type type_1
  then [ ("Inspection", "Store ID and Name");
         ("Store ID and Name", "Store ID and Name");
         ("Store ID and Name", "Tracker");
         ("Tracker", "Tracker");
         ("Tracker", "Inspector");
         ("Inspector", "Inspector");
         ("Project Team PIC", "Project Team PIC");
         ("Project Team Present", "Project Team Present");
         ("Contractor PIC", "Contractor PIC");
         ("Contractor Present", "Contractor Present");
         ("Issue Date", "Issue Date");
         ("Inspection Date", "Inspection Date");
         ("Report Date", "Report Date");
         ("Handover Date", "Handover Date") ]%string
  else [ ("Document No.", "Document No.");
         ("Audit Title", "Audit Title");
         ("Site Name", "Site Name");
         ("Location", "Location");
         ("Location", "Contractor Present");
         ("Contractor Present", "Contractor Present");
         ("Contractor Name", "Contractor Present");
         ("Contractor Name", "Name");
         ("Project PIC Present", "Project PIC Present");
         ("Project PIC Name", "Project PIC Present");
         ("Project PIC Name", "Name");
         ("Inspected by", "Inspected by");
         ("Inspection Date", "Inspection Date");
         ("Prepared by", "Prepared by") ]%string.

(** Each pair names a rule of the table whose pattern holds the label. *)
Definition labels_checked (doc_type : value) : bool :=
  forallb (fun '(field, label) =>
             existsb (fun '(field', pattern) =>
                        String.eqb field field' && needs (raw label) pattern)
                     (patterns_of doc_type))
          (labels_needed doc_type).

(** ** The script around the batch *)

Definition session : Py world := fun w => (Return w, w).

Definition set_last_uploaded (name : pystr) : Py unit :=
  fun w => (Return tt, {| last_uploaded := Some name;
                          processed_data := processed_data w |}).

Definition set_processed_data (result : list dict * list dict) : Py unit :=
  fun w => (Return tt, {| last_uploaded := last_uploaded w;
                          processed_data := Some result |}).

(** [st.session_state.get("last_uploaded") == name]. *)
Definition same_upload (stored : option pystr) (name : pystr) : bool :=
  match stored with
  | Some n => pystr_eqb n name
  | None => false
  end.

(** One run of the script of [app.py] with an uploaded archive, given by
    its name and its bytes: process it unless the session holds a result
    and the name of this archive.  The name is stored before the archive
    is processed, the result after; an exception of [process_zip_file]
    ends the run in between.  The progress display is not part of the
    model, and [st.cache_data] on [process_zip_file] only saves
    computing the same result again. *)
Definition run_script (lower : pystr -> pystr) (name : pystr)
  (uploaded_bytes : upload) : Py (list dict * list dict) :=
  s <- session ;;
  let process :=
    _ <- set_last_uploaded name ;;
    result <- process_zip_file lower uploaded_bytes ;;
    _ <- set_processed_data result ;;
    ret result in
  match processed_data s with
  | None => process
  | Some cached =>
      if negb (same_upload (last_uploaded s) name) then process
      else ret cached
  end.

(** What the script shows for a result: the two tables with their
    download buttons, and the notice that no data was extracted. *)
Record display := {
  shows_type_1 : bool;
  shows_type_2 : bool;
  shows_no_data : bool
}.

Definition truthy {A} (l : list A) : bool :=
  match l with
  | [] => false
  | _ :: _ => true
  end.

Definition display_of (result : list dict * list dict) : display :=
  let '(all_data_type_1, all_data_type_2) := result in
  {| shows_type_1 := truthy all_data_type_1;
     shows_type_2 := truthy all_data_type_2;
     shows_no_data := negb (truthy all_data_type_1)
                      && negb (truthy all_data_type_2) |}.

(** A page that names its store but no tracker. *)
Definition store_only_page : pystr :=
  py "Audit\nStore ID and Name\n001 - Main St\nInspector\nJohn Smith".

(** ** The three kinds of rule *)

Definition citem_eqb (i j : citem) : bool :=
  match i, j with
  | IChar c, IChar d => N.eqb c d
  | ISpace, ISpace => true
  | INotSpace, INotSpace => true
  | _, _ => false
  end.

Fixpoint items_eqb (l m : list citem) : bool :=
  match l, m with
  | [], [] => true
  | i :: l', j :: m' => citem_eqb i j && items_eqb l' m'
  | _, _ => false
  end.

Definition atom_eqb (a b : atom) : bool :=
  match a, b with
  | ALit c, ALit d => N.eqb c d
  | AIn n l, AIn n' l' => Bool.eqb n n' && items_eqb l l'
  | _, _ => false
  end.

Fixpoint regex_eqb (r r' : regex) : bool :=
  match r, r' with
  | REmpty, REmpty => true
  | RAtom a, RAtom b => atom_eqb a b
  | RPlus g a, RPlus g' b => Bool.eqb g g' && atom_eqb a b
  | RSeq r1 r2, RSeq r1' r2' => regex_eqb r1 r1' && regex_eqb r2 r2'
  | RGroup r1, RGroup r1' => regex_eqb r1 r1'
  | RLook r1, RLook r1' => regex_eqb r1 r1'
  | _, _ => false
  end.

(** [s.find(l)]: the position of the first occurrence of [l] in [s]. *)
Fixpoint find_from (l s : pystr) (i : nat) : option nat :=
  if starts_with l s then Some i
  else match s with
       | [] => None
       | _ :: s' => find_from l s' (S i)
       end.

Definition find (l s : pystr) : option nat := find_from l s 0.

(** The pattern compiles, with its one group, to [r]. *)
Definition compiles_to (pattern : string) (r : regex) : bool :=
  match compile pattern with
  | Some p => regex_eqb (p_regex p) r && (p_groups p =? 1)
  | None => false
  end.

(** A rule that reads the rest of a line after its own label:
    [label\s+([^\n]+)] with the name of the field as label. *)
Definition line_rule (field pattern : string) : bool :=
  compiles_to pattern (single_line (raw field)).

Definition line_fields (doc_type : value) : list string :=
  map fst (filter (fun '(field, pattern) => line_rule field pattern)
                  (patterns_of doc_type)).

(** [[\s\S]]. *)
Definition any : atom := AIn false [ISpace; INotSpace].

(** [label\s+([\s\S]+?)\s+closing]. *)
Definition bounded (label closing : pystr) : regex :=
  lit_then label
    (RSeq (RPlus true sp)
       (RSeq (RGroup (RSeq (RPlus false any) REmpty))
          (RSeq (RPlus true sp) (lit_then closing REmpty)))).

(** The bounded captures: the field, whose name is the label, and the
    label that closes the capture. *)
Definition bounded_rules (doc_type : value) : list (string * string) :=
  if value_eqb doc_type type_1
  then [("Store ID and Name", "Tracker"); ("Tracker", "Inspector")]%string
  else [("Location", "Contractor Present")]%string.

Definition bounded_rule (field closing pattern : string) : bool :=
  compiles_to pattern (bounded (raw field) (raw closing)).

(** [([^\n]+)(?=\s+marker)]. *)
Definition before_marker (marker : pystr) : regex :=
  RSeq (RGroup (RSeq (RPlus true not_nl) REmpty))
    (RSeq (RLook (RSeq (RPlus true sp) (lit_then marker REmpty))) REmpty).

(** A text that is empty or ends with a line break. *)
Definition at_line_start (pre : pystr) : Prop := line_end (rev pre).

(** A report whose store name runs over two lines. *)
Definition two_line_store_page : pystr :=
  py "Weekly visit\nStore ID and Name\n001 - Main St\nNorth Wing\nTracker\nINS-2024\nInspector\nJohn Smith".

(** Each bounded rule is in the table with the pattern
    [field\s+([\s\S]+?)\s+closing], and its closing label starts with a
    visible character and cannot overlap itself. *)
Definition bounded_checked (doc_type : value) : bool :=
  forallb (fun '(field, closing) =>
             existsb (fun '(field', pattern) =>
                        String.eqb field field'
                        && bounded_rule field closing pattern)
                     (patterns_of doc_type)
             && border_free (raw closing)
             && match raw closing with
                | c :: _ => negb (isspace c)
                | [] => false
                end)
          (bounded_rules doc_type).

(** ** The loop of [streamlit.py] *)

Inductive failure :=
| ReadFailure (message : pystr)   (* raised while reading the entry *)
| Raised (e : exn).               (* raised by the engine *)

(** The calls that write to the page, with their arguments. *)
Inductive ui_event :=
| Found (total : nat)                        (* [st.write("Found ...")] *)
| Status (pdf_name : pystr) (i total : nat)  (* [status_text.text("Processing: ...")] *)
| Warning (pdf_name : pystr)                 (* [st.warning("Unknown document type: ...")] *)
| Error (pdf_name : pystr) (f : failure)     (* [st.error("Error processing ...")] *)
| Progress (i total : nat)                   (* [progress_bar.progress(i / total_files)] *)
| Complete.                                  (* [status_text.text("Processing complete!")] *)

(** [try: c except Exception as e: ...]: the outcome of [c] as a value. *)
Definition try {A} (c : Py A) : Py (outcome A) :=
  fun w => let (o, w') := c w in (Return o, w').

(** [enumerate(l, start)]. *)
Fixpoint enumerate {A} (start : nat) (l : list A) : list (nat * A) :=
  match l with
  | [] => []
  | x :: l' => (start, x) :: enumerate (S start) l'
  end.

(** The loop of [streamlit.py] over the PDF entries of the archive, each
    given by its name and what reading its first page gives.  A result
    [None] of the attempt stands for [continue]. *)
Definition streamlit_loop (pdf_files : list (pystr * page))
  : Py (list dict * list dict * list ui_event) :=
  let total_files := List.length pdf_files in
  st <- for_each (enumerate 1 pdf_files) ([], [], [Found total_files])
    (fun '(all_data_type_1, all_data_type_2, log) '(i, (pdf_name, p)) =>
       let log := log ++ [Status pdf_name i total_files] in
       match p with
       | Unreadable message =>
           ret (all_data_type_1, all_data_type_2,
                log ++ [Error pdf_name (ReadFailure message);
                        Progress i total_files])
       | Readable text =>
           attempt <- try (
             doc_type <- detect_document_type text ;;
             match doc_type with
             | PyNone => ret None
             | _ =>
                 data <- extract_data_by_type text doc_type ;;
                 ret (Some (doc_type,
                            setitem data "Source File" (PyStr pdf_name)))
             end) ;;
           match attempt with
           | Return None =>
               ret (all_data_type_1, all_data_type_2,
                    log ++ [Warning pdf_name])
           | Return (Some (doc_type, data)) =>
               if value_eqb doc_type type_1
               then ret (all_data_type_1 ++ [data], all_data_type_2,
                         log ++ [Progress i total_files])
               else ret (all_data_type_1, all_data_type_2 ++ [data],
                         log ++ [Progress i total_files])
           | Raise e =>
               ret (all_data_type_1, all_data_type_2,
                    log ++ [Error pdf_name (Raised e);
                            Progress i total_files])
           end
       end) ;;
  let '(all_data_type_1, all_data_type_2, log) := st in
  ret (all_data_type_1, all_data_type_2, log ++ [Complete]).

(** An entry that was read and holds neither marker. *)
Definition unknown (entry : pystr * page) : bool :=
  match snd entry with
  | Readable text => value_eqb (doc_type_of text) PyNone
  | Unreadable _ => false
  end.

(** What the loop writes for entry number [i]. *)
Definition events_of (total : nat) (numbered : nat * (pystr * page))
  : list ui_event :=
  let '(i, (pdf_name, p)) := numbered in
  Status pdf_name i total ::
  match p with
  | Unreadable message =>
      [Error pdf_name (ReadFailure message); Progress i total]
  | Readable text =>
      if value_eqb (doc_type_of text) PyNone then [Warning pdf_name]
      else [Progress i total]
  end.

(** The names warned about and the failures reported, in the order of
    the log. *)
Definition warnings (log : list ui_event) : list pystr :=
  flat_map (fun e => match e with Warning n => [n] | _ => [] end) log.

Definition errors (log : list ui_event) : list (pystr * failure) :=
  flat_map (fun e => match e with Error n f => [(n, f)] | _ => [] end) log.

(** The entries that could not be read, with the failure reported. *)
Definition unreadable (pdf_files : list (pystr * page))
  : list (pystr * failure) :=
  flat_map (fun '(pdf_name, p) =>
              match p with
              | Readable _ => []
              | Unreadable message => [(pdf_name, ReadFailure message)]
              end) pdf_files.


(** * Properties *)

(** ** Strings *)

Lemma pystr_eqb_eq a : forall b, pystr_eqb a b = true <-> a = b.
Proof.
  induction a as [|c a IH]; intros [|d b]; simpl; split; intros H;
    try reflexivity; try discriminate.
  - apply andb_prop in H as [Hc Ha]. apply N.eqb_eq in Hc.
    apply IH in Ha. congruence.
  - inversion H; subst. rewrite N.eqb_refl. simpl. now apply IH.
Qed.

Lemma value_eqb_eq a b : value_eqb a b = true <-> a = b.
Proof.
  destruct a as [|x], b as [|y]; simpl; split; intros H;
    try reflexivity; try discriminate.
  - apply pystr_eqb_eq in H. congruence.
  - inversion H; subst. now apply pystr_eqb_eq.
Qed.

Lemma starts_with_app l s : starts_with l (l ++ s) = true.
Proof.
  induction l as [|c l IH]; simpl; [reflexivity|].
  now rewrite N.eqb_refl.
Qed.

Lemma starts_with_inv l : forall s,
  starts_with l s = true -> exists s', s = l ++ s'.
Proof.
  induction l as [|c l IH]; intros s H.
  - now exists s.
  - destruct s as [|d s]; simpl in H; [discriminate|].
    apply andb_prop in H as [Hc Hl].
    apply N.eqb_eq in Hc. subst d.
    destruct (IH _ Hl) as [s' ->]. now exists s'.
Qed.

Lemma contains_head l s : starts_with l s = true -> contains l s = true.
Proof. destruct s; simpl; intros ->; reflexivity. Qed.

Lemma contains_iff l s :
  contains l s = true <-> exists a b, s = a ++ l ++ b.
Proof.
  split.
  - induction s as [|d s IH]; simpl; intros H.
    + rewrite orb_false_r in H. apply starts_with_inv in H as [s' ->].
      now exists [], s'.
    + apply orb_prop in H as [H|H].
      * apply starts_with_inv in H as [s' ->]. now exists [], s'.
      * destruct (IH H) as (a & b & ->). now exists (d :: a), b.
  - intros (a & b & ->).
    induction a as [|d a IH]; simpl.
    + apply contains_head, starts_with_app.
    + rewrite IH. apply orb_true_r.
Qed.

Lemma contains_suffix l u s : contains l s = true -> contains l (u ++ s) = true.
Proof.
  rewrite !contains_iff. intros (a & b & ->).
  exists (u ++ a), b. now rewrite <- app_assoc.
Qed.

(** ** The matcher against the declarative reading *)

Lemma plus_greedy_sound a s : forall g k res,
  plus_greedy a s g k = Some res ->
  exists u s', s = u ++ s' /\ u <> [] /\
               forallb (atom_match a) u = true /\ k s' g = Some res.
Proof.
  induction s as [|c s IH]; simpl; intros g k res H; [discriminate|].
  destruct (atom_match a c) eqn:Hc; [|discriminate].
  destruct (plus_greedy a s g k) eqn:E.
  - destruct (IH _ _ _ E) as (u & s' & -> & _ & Hall & Hk).
    exists (c :: u), s'. repeat split; simpl; try congruence.
    now rewrite Hc.
  - exists [c], s. repeat split; simpl; try congruence.
    now rewrite Hc.
Qed.

Lemma plus_lazy_sound a s : forall g k res,
  plus_lazy a s g k = Some res ->
  exists u s', s = u ++ s' /\ u <> [] /\
               forallb (atom_match a) u = true /\ k s' g = Some res.
Proof.
  induction s as [|c s IH]; simpl; intros g k res H; [discriminate|].
  destruct (atom_match a c) eqn:Hc; [|discriminate].
  destruct (k s g) eqn:E.
  - exists [c], s. repeat split; simpl; try congruence.
    now rewrite Hc.
  - destruct (IH _ _ _ H) as (u & s' & -> & _ & Hall & Hk).
    exists (c :: u), s'. repeat split; simpl; try congruence.
    now rewrite Hc.
Qed.

(** Whatever the matcher returns went through a declarative match of the
    pattern followed by a success of the continuation. *)
Lemma rmatch_sound r : forall s g k res,
  rmatch r s g k = Some res ->
  exists s' g', Matches r s g s' g' /\ k s' g' = Some res.
Proof.
  induction r as [|a|greedy a|r1 IH1 r2 IH2|r IH|r IH]; simpl; intros s g k res H.
  - exists s, g. split; [constructor|assumption].
  - destruct s as [|c s]; [discriminate|].
    destruct (atom_match a c) eqn:Hc; [|discriminate].
    exists s, g. split; [now constructor|assumption].
  - destruct greedy.
    + apply plus_greedy_sound in H as (u & s' & -> & Hu & Hall & Hk).
      exists s', g. split; [now constructor|assumption].
    + apply plus_lazy_sound in H as (u & s' & -> & Hu & Hall & Hk).
      exists s', g. split; [now constructor|assumption].
  - apply IH1 in H as (s1 & g1 & M1 & H).
    apply IH2 in H as (s2 & g2 & M2 & H).
    exists s2, g2. split; [econstructor; eassumption|assumption].
  - apply IH in H as (s1 & g1 & M1 & H).
    eexists s1, _. split; [econstructor; eassumption|assumption].
  - destruct (rmatch r s g (fun s' g' => Some (s', g'))) as [[t g1]|] eqn:E;
      [|discriminate].
    apply IH in E as (s1 & g1' & M1 & E). inversion E; subst.
    exists s, g1. split; [econstructor; eassumption|assumption].
Qed.

Lemma Matches_suffix r s g s' g' :
  Matches r s g s' g' -> exists u, s = u ++ s'.
Proof.
  induction 1.
  - now exists [].
  - now exists [c].
  - now exists u.
  - destruct IHMatches1 as [u1 ->], IHMatches2 as [u2 ->].
    exists (u1 ++ u2). now rewrite <- app_assoc.
  - assumption.
  - now exists [].
Qed.

Lemma Matches_group r s g s' g' :
  Matches r s g s' g' ->
  sets_group r = true \/ g <> None -> g' <> None.
Proof.
  induction 1; simpl; intros [Hs|Hg]; try discriminate; try tauto.
  - apply orb_prop in Hs as [Hs|Hs]; tauto.
Qed.

Lemma Matches_begins l : forall r s g s' g',
  begins_with l r = true -> Matches r s g s' g' -> starts_with l s = true.
Proof.
  induction l as [|c l IH]; intros r s g s' g' Hb M; [reflexivity|].
  simpl in Hb.
  destruct r as [| | |r1 r2| |]; try discriminate.
  destruct r1 as [|[d|]| | | |]; try discriminate.
  apply andb_prop in Hb as [Hc Hb].
  inversion M as [| | |? ? ? ? ? ? ? ? M1 M2| |]; subst.
  inversion M1; subst. simpl in *.
  apply N.eqb_eq in Hc; subst d.
  match goal with H : (_ =? _)%N = true |- _ => apply N.eqb_eq in H; subst end.
  rewrite N.eqb_refl. simpl. eapply IH; eassumption.
Qed.

Lemma Matches_requires l r s g s' g' :
  Matches r s g s' g' -> requires l r = true -> contains l s = true.
Proof.
  induction 1 as [s g|a c s g Hc|greedy a u s g Hu Hall
                  |r1 r2 s g s1 g1 s2 g2 M1 IH1 M2 IH2
                  |r s g s' g' M IH|r s g s' g' M IH]; intros Hr.
  - simpl in Hr. rewrite orb_false_r in Hr.
    destruct l; [|discriminate]. now destruct s.
  - simpl in Hr. rewrite orb_false_r in Hr.
    destruct l; [|discriminate]. reflexivity.
  - simpl in Hr. rewrite orb_false_r in Hr.
    destruct l; [|discriminate]. apply contains_head. reflexivity.
  - change (requires l (RSeq r1 r2))
      with (begins_with l (RSeq r1 r2) || (requires l r1 || requires l r2)) in Hr.
    apply orb_prop in Hr as [Hr|Hr].
    + apply contains_head.
      eapply Matches_begins; [eassumption|econstructor; eassumption].
    + apply orb_prop in Hr as [Hr|Hr]; [auto|].
      destruct (Matches_suffix _ _ _ _ _ M1) as [u ->].
      apply contains_suffix. auto.
  - change (requires l (RGroup r))
      with (begins_with l (RGroup r) || requires l r) in Hr.
    apply orb_prop in Hr as [Hr|Hr]; [|auto].
    destruct l; [|discriminate]. apply contains_head. reflexivity.
  - change (requires l (RLook r))
      with (begins_with l (RLook r) || requires l r) in Hr.
    apply orb_prop in Hr as [Hr|Hr]; [|auto].
    destruct l; [|discriminate]. apply contains_head. reflexivity.
Qed.

(** A successful search found a declarative match at some position. *)
Lemma search_from_sound p s : forall i m,
  search_from p i s = Some m ->
  exists u t s',
    s = u ++ t /\ Matches (p_regex p) t None s' (m_group1 m) /\
    m_groups m = p_groups p /\ m_start m = i + List.length u.
Proof.
  induction s as [|c s IH]; intros i m H; simpl in H.
  - destruct (rmatch (p_regex p) [] None accept) as [[s' g]|] eqn:E;
      [|discriminate].
    apply rmatch_sound in E as (s1 & g1 & M & E).
    inversion E; subst. inversion H; subst; simpl.
    exists [], [], s'. repeat split; auto.
  - destruct (rmatch (p_regex p) (c :: s) None accept) as [[s' g]|] eqn:E.
    + apply rmatch_sound in E as (s1 & g1 & M & E).
      inversion E; subst. inversion H; subst; simpl.
      exists [], (c :: s), s'. repeat split; auto.
    + apply IH in H as (u & t & s' & -> & M & Hg & Hi).
      exists (c :: u), t, s'. repeat split; auto. simpl. lia.
Qed.

Lemma search_group p text m :
  search p text = Some m -> sets_group (p_regex p) = true ->
  exists g, m_group1 m = Some g.
Proof.
  intros H Hs. apply search_from_sound in H as (u & t & s' & _ & M & _).
  apply Matches_group in M; [|now left].
  destruct (m_group1 m) as [g|]; [now exists g|congruence].
Qed.

Lemma search_requires l p text m :
  search p text = Some m -> requires l (p_regex p) = true ->
  contains l text = true.
Proof.
  intros H Hr. apply search_from_sound in H as (u & t & s' & -> & M & _).
  apply contains_suffix. eapply Matches_requires; eassumption.
Qed.

(** ** Literal patterns *)

Lemma rmatch_lit_then l r : forall s g k,
  rmatch (lit_then l r) s g k =
  if starts_with l s then rmatch r (skipn (List.length l) s) g k else None.
Proof.
  induction l as [|c l IH]; intros s g k; [reflexivity|].
  destruct s as [|d s]; [reflexivity|].
  simpl. rewrite (N.eqb_sym d c).
  destruct (c =? d)%N; [apply IH|reflexivity].
Qed.

(** Searching for a pattern without operators is the substring test. *)
Lemma search_literal l n s : forall i,
  matched (search_from {| p_regex := lit_then l REmpty; p_groups := n |} i s)
  = contains l s.
Proof.
  induction s as [|d s IH]; intros i; simpl search_from;
    rewrite rmatch_lit_then; simpl contains.
  - destruct (starts_with l []); reflexivity.
  - destruct (starts_with l (d :: s)); [reflexivity|apply IH].
Qed.

Lemma compile_document_no :
  compile "Document No\." =
  Some {| p_regex := lit_then (py "Document No.") REmpty; p_groups := 0 |}.
Proof. reflexivity. Qed.

Lemma compile_store_id_and_name :
  compile "Store ID and Name" =
  Some {| p_regex := lit_then (py "Store ID and Name") REmpty; p_groups := 0 |}.
Proof. reflexivity. Qed.

(** What [detect_document_type] computes, in every state. *)
Lemma detect_document_type_run text w :
  detect_document_type text w =
  (Return (if contains (py "Document No.") text then type_2
           else if contains (py "Store ID and Name") text then type_1
           else PyNone), w).
Proof.
  unfold detect_document_type, bind, re_search.
  rewrite compile_document_no, compile_store_id_and_name.
  unfold ret, search.
  rewrite <- (search_literal (py "Document No.") 0 text 0).
  rewrite <- (search_literal (py "Store ID and Name") 0 text 0).
  destruct (search_from _ 0 text); simpl; [reflexivity|].
  destruct (search_from _ 0 text); reflexivity.
Qed.

(** ** Dictionaries *)

Lemma setitem_fresh d k v :
  ~ In k (keys d) -> setitem d k v = d ++ [(k, v)].
Proof.
  induction d as [|[k' v'] d IH]; simpl; intros H; [reflexivity|].
  destruct (String.eqb_spec k' k) as [->|_]; [tauto|].
  rewrite IH; [reflexivity|tauto].
Qed.

Lemma keys_app d1 d2 : keys (d1 ++ d2) = keys d1 ++ keys d2.
Proof. apply map_app. Qed.

Lemma getitem_app d1 d2 k :
  getitem (d1 ++ d2) k =
  match getitem d1 k with Some v => Some v | None => getitem d2 k end.
Proof.
  induction d1 as [|[k' v'] d1 IH]; simpl; [reflexivity|].
  destruct (String.eqb k' k); [reflexivity|apply IH].
Qed.

Lemma getitem_none d k : ~ In k (keys d) -> getitem d k = None.
Proof.
  induction d as [|[k' v'] d IH]; simpl; intros H; [reflexivity|].
  destruct (String.eqb_spec k' k) as [->|_]; [tauto|].
  apply IH. tauto.
Qed.

(** In a table without repeated names, a field is looked up at its rule. *)
Lemma getitem_map {A} (f : A -> value) (tbl : list (string * A)) k a :
  NoDup (map fst tbl) -> In (k, a) tbl ->
  getitem (map (fun '(k', a') => (k', f a')) tbl) k = Some (f a).
Proof.
  induction tbl as [|[k' a'] tbl IH]; simpl; intros Hn Hin; [tauto|].
  inversion Hn as [|? ? Hk Hn']; subst.
  destruct Hin as [E|Hin].
  - inversion E; subst. now rewrite String.eqb_refl.
  - destruct (String.eqb_spec k' k) as [->|_].
    + exfalso. apply Hk. apply (in_map fst) in Hin. exact Hin.
    + now apply IH.
Qed.

Lemma distinct_NoDup l : distinct l = true -> NoDup l.
Proof.
  induction l as [|x l IH]; simpl; intros H; [constructor|].
  apply andb_prop in H as [Hx Hl].
  constructor; [|auto].
  intros Hin. apply negb_true_iff in Hx.
  assert (existsb (String.eqb x) l = true); [|congruence].
  apply existsb_exists. exists x. split; [assumption|apply String.eqb_refl].
Qed.

(** ** The extraction loop *)

Lemma tables_ok doc_type : table_ok (patterns_of doc_type) = true.
Proof.
  unfold patterns_of. destruct (value_eqb doc_type type_1); vm_compute; reflexivity.
Qed.

Section Loop.

Variable text : pystr.

Let body := fun (data : dict) '(field, pattern) =>
  m <- re_search pattern text ;;
  match m with
  | Some mt =>
      g <- group1 mt ;;
      value <- str_strip g ;;
      let value := join (py " ") (split value) in
      ret (setitem data field (PyStr value))
  | None => ret (setitem data field PyNone)
  end.

Lemma body_run data field pattern w :
  rule_ok pattern = true ->
  body data (field, pattern) w =
  (Return (setitem data field (rule_value pattern text)), w).
Proof.
  unfold rule_ok, body, rule_value, bind, re_search.
  destruct (compile pattern) as [p|]; [|discriminate].
  intros H. apply andb_prop in H as [Hn Hg].
  apply Nat.eqb_eq in Hn.
  unfold ret. destruct (search p text) as [m|] eqn:E; [|reflexivity].
  destruct (search_group _ _ _ E Hg) as [g Hm].
  apply search_from_sound in E as (_ & _ & _ & _ & _ & Hgroups & _).
  unfold group1. rewrite Hgroups, Hn, Hm. reflexivity.
Qed.

Lemma loop_run tbl : forall data w,
  forallb rule_ok (map snd tbl) = true ->
  NoDup (keys data ++ map fst tbl) ->
  for_each tbl data body w =
  (Return (data ++ map (fun '(field, pattern) =>
                          (field, rule_value pattern text)) tbl), w).
Proof.
  induction tbl as [|[field pattern] tbl IH]; intros data w Hok Hnd.
  - simpl. now rewrite app_nil_r.
  - cbn [map snd forallb] in Hok. apply andb_prop in Hok as [Hr Hok].
    change (for_each ((field, pattern) :: tbl) data body w)
      with (bind (body data (field, pattern))
                 (fun st' => for_each tbl st' body) w).
    unfold bind at 1. rewrite (body_run _ _ _ _ Hr).
    assert (Hfresh : ~ In field (keys data)).
    { intros Hin. apply NoDup_remove_2 in Hnd. apply Hnd.
      apply in_or_app. now left. }
    rewrite (setitem_fresh _ _ _ Hfresh).
    rewrite IH; [now rewrite <- app_assoc|assumption|].
    rewrite keys_app, <- app_assoc. exact Hnd.
Qed.

(** What [extract_data_by_type] computes, in every state. *)
Lemma extract_data_by_type_run doc_type w :
  extract_data_by_type text doc_type w = (Return (record_of text doc_type), w).
Proof.
  pose proof (tables_ok doc_type) as Hok.
  unfold table_ok in Hok. apply andb_prop in Hok as [Hr Hd].
  apply distinct_NoDup in Hd.
  unfold extract_data_by_type. fold (patterns_of doc_type).
  fold body. unfold bind.
  rewrite loop_run; [|assumption|].
  - unfold ret, record_of. simpl app at 1.
    rewrite setitem_fresh; [reflexivity|].
    unfold keys. rewrite map_map.
    rewrite (map_ext _ fst) by (now intros [? ?]).
    apply NoDup_remove_2 in Hd. intros Hin. apply Hd.
    apply in_or_app. now left.
  - simpl. apply NoDup_app_remove_r in Hd. exact Hd.
Qed.

End Loop.

(** ** Absent labels *)

Lemma rule_value_absent l pattern text :
  needs l pattern = true -> contains l text = false ->
  rule_value pattern text = PyNone.
Proof.
  unfold needs, rule_value. intros Hn Hc.
  destruct (compile pattern) as [p|]; [|reflexivity].
  destruct (search p text) as [m|] eqn:E; [|reflexivity].
  rewrite (search_requires _ _ _ _ E Hn) in Hc. discriminate.
Qed.

Lemma tables_anchored doc_type : anchored (patterns_of doc_type) = true.
Proof.
  unfold patterns_of. destruct (value_eqb doc_type type_1); vm_compute; reflexivity.
Qed.

Lemma label_free_absent doc_type text field pattern :
  label_free doc_type text = true ->
  In (field, pattern) (patterns_of doc_type) ->
  rule_value pattern text = PyNone.
Proof.
  intros Hfree Hin.
  pose proof (tables_anchored doc_type) as Ha.
  unfold anchored in Ha. rewrite forallb_forall in Ha.
  specialize (Ha _ Hin). simpl in Ha.
  apply existsb_exists in Ha as (f' & Hf' & Hneeds).
  unfold label_free in Hfree. rewrite forallb_forall in Hfree.
  specialize (Hfree _ Hf'). apply negb_true_iff in Hfree.
  eapply rule_value_absent; eassumption.
Qed.

Lemma tables_lettered doc_type : lettered (patterns_of doc_type) = true.
Proof.
  unfold patterns_of. destruct (value_eqb doc_type type_1); vm_compute; reflexivity.
Qed.

Lemma contains_first c l s : contains (c :: l) s = true -> In c s.
Proof.
  intros H. apply contains_iff in H as (a & b & ->).
  apply in_or_app. right. now left.
Qed.

Lemma non_textual_label_free doc_type text :
  non_textual text = true -> label_free doc_type text = true.
Proof.
  intros Hn. unfold label_free. apply forallb_forall. intros field Hin.
  pose proof (tables_lettered doc_type) as Hl.
  unfold lettered in Hl. rewrite forallb_forall in Hl.
  specialize (Hl _ Hin).
  destruct (raw field) as [|c l]; [discriminate|].
  destruct (contains (c :: l) text) eqn:E; [|reflexivity].
  apply contains_first in E.
  unfold non_textual in Hn. rewrite forallb_forall in Hn.
  specialize (Hn _ E). now rewrite Hl in Hn.
Qed.

Lemma table_NoDup doc_type : NoDup (map fst (patterns_of doc_type)).
Proof.
  pose proof (tables_ok doc_type) as Hok.
  unfold table_ok in Hok. apply andb_prop in Hok as [_ Hd].
  apply distinct_NoDup in Hd. now apply NoDup_app_remove_r in Hd.
Qed.

Lemma table_fresh doc_type k :
  In k ["Document Type"; "Source File"]%string ->
  ~ In k (map fst (patterns_of doc_type)).
Proof.
  intros Hk Hin.
  pose proof (tables_ok doc_type) as Hok.
  unfold table_ok in Hok. apply andb_prop in Hok as [_ Hd].
  apply distinct_NoDup in Hd.
  apply in_split in Hin as (l1 & l2 & E). rewrite E in Hd.
  rewrite <- app_assoc in Hd. simpl in Hd.
  apply NoDup_remove_2 in Hd. apply Hd.
  rewrite app_assoc. apply in_or_app. now right.
Qed.

Lemma keys_record_of text doc_type :
  keys (record_of text doc_type) =
  map fst (patterns_of doc_type) ++ ["Document Type"%string].
Proof.
  unfold record_of. rewrite keys_app. unfold keys at 1. rewrite map_map.
  rewrite (map_ext _ fst) by (now intros [? ?]). reflexivity.
Qed.

(** The field of a rule holds what that rule alone yields. *)
Lemma getitem_record_of text doc_type field pattern :
  In (field, pattern) (patterns_of doc_type) ->
  getitem (record_of text doc_type) field = Some (rule_value pattern text).
Proof.
  intros Hin. unfold record_of. rewrite getitem_app.
  rewrite (getitem_map (fun pat => rule_value pat text) _ field pattern);
    [reflexivity|apply table_NoDup|assumption].
Qed.

Lemma getitem_document_type text doc_type :
  getitem (record_of text doc_type) "Document Type" = Some doc_type.
Proof.
  unfold record_of. rewrite getitem_app, getitem_none; [reflexivity|].
  unfold keys. rewrite map_map.
  rewrite (map_ext _ fst) by (now intros [? ?]).
  apply table_fresh. now left.
Qed.

(** ** The batch loop *)

Lemma keys_with_source text doc_type pdf_name :
  keys (setitem (record_of text doc_type) "Source File" (PyStr pdf_name)) =
  columns (patterns_of doc_type).
Proof.
  rewrite setitem_fresh.
  - rewrite keys_app, keys_record_of. unfold columns.
    now rewrite <- app_assoc.
  - rewrite keys_record_of. intros Hin.
    apply in_app_or in Hin as [Hin|[Hin|[]]]; [|discriminate].
    revert Hin. apply table_fresh. right. now left.
Qed.

Lemma doc_type_of_cases text :
  doc_type_of text = type_2 \/ doc_type_of text = type_1
  \/ doc_type_of text = PyNone.
Proof.
  unfold doc_type_of.
  destruct (contains (py "Document No.") text); [now left|].
  destruct (contains (py "Store ID and Name") text); [right; now left|].
  right. now right.
Qed.

Lemma entry_record_setitem pdf_name text doc_type :
  setitem (record_of text doc_type) "Source File" (PyStr pdf_name)
  = entry_record doc_type (pdf_name, text).
Proof.
  unfold entry_record. simpl fst. simpl snd.
  apply setitem_fresh. rewrite keys_record_of. intros Hin.
  apply in_app_or in Hin as [Hin|[Hin|[]]]; [|discriminate].
  revert Hin. apply table_fresh. right. now left.
Qed.

Lemma bucket_cons doc_type entry rest :
  bucket doc_type (entry :: rest) =
  if value_eqb (doc_type_of (snd entry)) doc_type
  then entry_record doc_type entry :: bucket doc_type rest
  else bucket doc_type rest.
Proof.
  unfold bucket. cbn [filter]. unfold has_type at 1.
  now destruct (value_eqb (doc_type_of (snd entry)) doc_type).
Qed.

Lemma bucket_keys doc_type pdf_files :
  Forall (fun data => keys data = columns (patterns_of doc_type))
         (bucket doc_type pdf_files).
Proof.
  unfold bucket. apply Forall_map, Forall_forall. intros [pdf_name text] _.
  rewrite <- entry_record_setitem. apply keys_with_source.
Qed.

Section Batch.

Let body := fun '(all_data_type_1, all_data_type_2) '(pdf_name, pdf_bytes) =>
  text <- extract_text_from_first_page pdf_bytes ;;
  doc_type <- detect_document_type text ;;
  match doc_type with
  | PyNone => ret (all_data_type_1, all_data_type_2)
  | _ =>
      data <- extract_data_by_type text doc_type ;;
      let data := setitem data "Source File" (PyStr pdf_name) in
      if value_eqb doc_type type_1
      then ret (all_data_type_1 ++ [data], all_data_type_2)
      else ret (all_data_type_1, all_data_type_2 ++ [data])
  end.

Lemma batch_run pdf_files : forall l1 l2 w,
  for_each pdf_files (l1, l2) body w =
  match first_failure pdf_files with
  | Some message => (Raise (ReadError message), w)
  | None =>
      (Return (l1 ++ bucket type_1 (readable pdf_files),
               l2 ++ bucket type_2 (readable pdf_files)), w)
  end.
Proof.
  induction pdf_files as [|[pdf_name [text|message]] rest IH]; intros l1 l2 w.
  - unfold bucket, readable.
    cbn [for_each first_failure flat_map filter map]. unfold ret.
    rewrite (app_nil_r l1), (app_nil_r l2). reflexivity.
  - change (for_each ((pdf_name, Readable text) :: rest) (l1, l2) body w)
      with (bind (body (l1, l2) (pdf_name, Readable text))
                 (fun st' => for_each rest st' body) w).
    change (first_failure ((pdf_name, Readable text) :: rest))
      with (first_failure rest).
    change (readable ((pdf_name, Readable text) :: rest))
      with ((pdf_name, text) :: readable rest).
    unfold bind at 1. unfold body at 1.
    unfold bind at 1. unfold extract_text_from_first_page at 1.
    unfold ret at 1. unfold bind at 1.
    rewrite detect_document_type_run.
    rewrite !bucket_cons. cbn [snd]. fold (doc_type_of text).
    destruct (doc_type_of_cases text) as [E|[E|E]]; rewrite E.
    + unfold type_2 at 1. unfold bind at 1.
      rewrite extract_data_by_type_run. cbv beta iota zeta.
      rewrite entry_record_setitem.
      change (value_eqb type_2 type_1) with false.
      change (value_eqb type_2 type_2) with true.
      cbv iota. unfold ret at 1. rewrite IH.
      destruct (first_failure rest); [reflexivity|].
      now rewrite <- app_assoc.
    + unfold type_1 at 1. unfold bind at 1.
      rewrite extract_data_by_type_run. cbv beta iota zeta.
      rewrite entry_record_setitem.
      change (value_eqb type_1 type_1) with true.
      change (value_eqb type_1 type_2) with false.
      cbv iota. unfold ret at 1. rewrite IH.
      destruct (first_failure rest); [reflexivity|].
      now rewrite <- app_assoc.
    + change (value_eqb PyNone type_1) with false.
      change (value_eqb PyNone type_2) with false.
      cbv iota. unfold ret at 1. apply IH.
  - reflexivity.
Qed.

End Batch.

Lemma process_pdf_files_run pdf_files w :
  process_pdf_files pdf_files w =
  match first_failure pdf_files with
  | Some message => (Raise (ReadError message), w)
  | None =>
      (Return (bucket type_1 (readable pdf_files),
               bucket type_2 (readable pdf_files)), w)
  end.
Proof. unfold process_pdf_files. now rewrite batch_run. Qed.

Lemma process_zip_file_run lower uploaded_zip_bytes w :
  process_zip_file lower uploaded_zip_bytes w
  = (batch_outcome lower uploaded_zip_bytes, w).
Proof.
  destruct uploaded_zip_bytes as [z|message]; [|reflexivity].
  unfold process_zip_file, batch_outcome. cbv zeta.
  fold (pdf_names lower z). fold (listing lower z).
  rewrite process_pdf_files_run.
  now destruct (first_failure (listing lower z)).
Qed.

Lemma process_zip_file_returns lower z w result w' :
  process_zip_file lower (Zip z) w = (Return result, w') ->
  first_failure (listing lower z) = None /\ w' = w /\
  result = (bucket type_1 (readable (listing lower z)),
            bucket type_2 (readable (listing lower z))).
Proof.
  rewrite process_zip_file_run. unfold batch_outcome.
  destruct (first_failure (listing lower z)); [discriminate|].
  intros H. inversion H. repeat split.
Qed.

(** * The engine as specified *)

(** ** Classification *)

(** C1. [detect_document_type] returns ["type_2"] (TypeB) when the text
    contains the marker ["Document No."], otherwise ["type_1"] (TypeA)
    when it contains ["Store ID and Name"], otherwise [None] (Unknown).
    The first test wins: a text of the form [a ++ "Document No." ++ b]
    is TypeB whatever [a] and [b] hold, the other marker included. *)
Theorem detect_document_type_precedence text w :
  detect_document_type text w =
    (Return (if contains (py "Document No.") text then type_2
             else if contains (py "Store ID and Name") text then type_1
             else PyNone), w)
  /\ (forall a b,
        detect_document_type (a ++ py "Document No." ++ b) w
        = (Return type_2, w))
  /\ (forall a b c,
        detect_document_type
          (a ++ py "Store ID and Name" ++ b ++ py "Document No." ++ c) w
        = (Return type_2, w)).
Proof.
  split; [apply detect_document_type_run|]. split.
  - intros a b. rewrite detect_document_type_run.
    replace (contains (py "Document No.") (a ++ py "Document No." ++ b))
      with true; [reflexivity|].
    symmetry. apply contains_iff. now exists a, b.
  - intros a b c. rewrite detect_document_type_run.
    replace (contains (py "Document No.")
               (a ++ py "Store ID and Name" ++ b ++ py "Document No." ++ c))
      with true; [reflexivity|].
    symmetry. apply contains_iff.
    exists (a ++ py "Store ID and Name" ++ b), c.
    now rewrite <- !app_assoc.
Qed.

(** ** Extraction *)

(** C2. For every rule of the selected table, the extraction returns
    normally and the field holds what its own rule yields on the text
    and nothing else: [None] when the pattern finds no match (which is
    not the empty string), the normalised group otherwise.  A rule that
    fails neither raises nor changes what any other field receives. *)
Theorem extract_field_independent text doc_type w field pattern :
  In (field, pattern) (patterns_of doc_type) ->
  exists data p,
    extract_data_by_type text doc_type w = (Return data, w) /\
    compile pattern = Some p /\
    match search p text with
    | None =>
        getitem data field = Some PyNone /\
        getitem data field <> Some (PyStr [])
    | Some m =>
        exists g, m_group1 m = Some g /\
                  getitem data field = Some (PyStr (normalize g))
    end.
Proof.
  intros Hin.
  pose proof (tables_ok doc_type) as Hok.
  unfold table_ok in Hok. apply andb_prop in Hok as [Hr _].
  rewrite forallb_forall in Hr.
  specialize (Hr pattern (in_map snd _ _ Hin)).
  unfold rule_ok in Hr.
  destruct (compile pattern) as [p|] eqn:Hc; [|discriminate].
  apply andb_prop in Hr as [_ Hg].
  exists (record_of text doc_type), p.
  split; [apply extract_data_by_type_run|]. split; [reflexivity|].
  rewrite (getitem_record_of _ _ _ _ Hin).
  unfold rule_value. rewrite Hc.
  destruct (search p text) as [m|] eqn:E.
  - destruct (search_group _ _ _ E Hg) as [g Hm].
    exists g. rewrite Hm. split; reflexivity.
  - split; [reflexivity|discriminate].
Qed.

Lemma extract_field_independent_witness :
  In ("Tracker", "Tracker\s+([\s\S]+?)\s+Inspector")%string
     (patterns_of type_1) /\
  exists data p,
    extract_data_by_type (py "Inspector\nJohn Smith") type_1
      {| last_uploaded := None; processed_data := None |}
    = (Return data, {| last_uploaded := None; processed_data := None |}) /\
    compile "Tracker\s+([\s\S]+?)\s+Inspector" = Some p /\
    match search p (py "Inspector\nJohn Smith") with
    | None =>
        getitem data "Tracker" = Some PyNone /\
        getitem data "Tracker" <> Some (PyStr [])
    | Some m =>
        exists g, m_group1 m = Some g /\
                  getitem data "Tracker" = Some (PyStr (normalize g))
    end.
Proof.
  assert (H : In ("Tracker", "Tracker\s+([\s\S]+?)\s+Inspector")%string
                 (patterns_of type_1)).
  { vm_compute. tauto. }
  split; [exact H|].
  exact (extract_field_independent _ _ _ _ _ H).
Defined.

(** C3. A document that is classified gives one record, whose keys are
    exactly the columns of the type the classification resolved: the 12
    rule fields of TypeA or the 11 of TypeB, in the order of the table,
    then [Document Type] and [Source File], no name twice.  When every
    listed entry of an archive can be read, [process_zip_file] returns
    these records and no other: for each type, one record for each
    entry the classification gives that type, in the order of the
    archive. *)
Theorem process_zip_file_columns lower z w :
  (forall pdf_name text,
     detect_document_type text w = (Return (doc_type_of text), w) /\
     (doc_type_of text <> PyNone ->
      (doc_type_of text = type_1 /\
       patterns_of (doc_type_of text) = PATTERNS_TYPE_1
       \/ doc_type_of text = type_2 /\
          patterns_of (doc_type_of text) = PATTERNS_TYPE_2) /\
      exists data,
        extract_data_by_type text (doc_type_of text) w = (Return data, w) /\
        setitem data "Source File" (PyStr pdf_name)
          = entry_record (doc_type_of text) (pdf_name, text) /\
        keys (entry_record (doc_type_of text) (pdf_name, text))
          = map fst (patterns_of (doc_type_of text))
            ++ ["Document Type"; "Source File"]%string)) /\
  (first_failure (listing lower z) = None ->
   exists all_data_type_1 all_data_type_2,
     process_zip_file lower (Zip z) w
       = (Return (all_data_type_1, all_data_type_2), w) /\
     all_data_type_1
       = map (entry_record type_1)
             (filter (has_type type_1) (readable (listing lower z))) /\
     all_data_type_2
       = map (entry_record type_2)
             (filter (has_type type_2) (readable (listing lower z))) /\
     Forall (fun data => keys data = columns PATTERNS_TYPE_1) all_data_type_1 /\
     Forall (fun data => keys data = columns PATTERNS_TYPE_2) all_data_type_2) /\
  List.length (map fst PATTERNS_TYPE_1) = 12 /\
  List.length (map fst PATTERNS_TYPE_2) = 11 /\
  NoDup (columns PATTERNS_TYPE_1) /\ NoDup (columns PATTERNS_TYPE_2).
Proof.
  split; [|split].
  - intros pdf_name text. split; [apply detect_document_type_run|].
    intros Hty. split.
    + destruct (doc_type_of_cases text) as [E|[E|E]];
        [right|left|contradiction]; rewrite E; split; reflexivity.
    + exists (record_of text (doc_type_of text)).
      split; [apply extract_data_by_type_run|].
      split; [apply entry_record_setitem|].
      rewrite <- entry_record_setitem. apply keys_with_source.
  - intros Hread.
    exists (bucket type_1 (readable (listing lower z))),
           (bucket type_2 (readable (listing lower z))).
    rewrite process_zip_file_run. unfold batch_outcome. rewrite Hread.
    repeat split.
    + apply (bucket_keys type_1).
    + apply (bucket_keys type_2).
  - repeat split; try reflexivity; apply distinct_NoDup; reflexivity.
Qed.

Lemma process_zip_file_columns_witness :
  first_failure (listing ascii_lower sample_zip) = None /\
  exists data_1 data_2,
    process_zip_file ascii_lower (Zip sample_zip)
      {| last_uploaded := None; processed_data := None |}
    = (Return ([data_1], [data_2]),
       {| last_uploaded := None; processed_data := None |}) /\
    keys data_1 = columns PATTERNS_TYPE_1 /\
    keys data_2 = columns PATTERNS_TYPE_2 /\
    getitem data_1 "Source File" = Some (PyStr (py "store.pdf")) /\
    getitem data_2 "Source File" = Some (PyStr (py "audit.pdf")).
Proof.
  assert (Hread : first_failure (listing ascii_lower sample_zip) = None)
    by reflexivity.
  split; [exact Hread|].
  destruct (process_zip_file_columns ascii_lower sample_zip
              {| last_uploaded := None; processed_data := None |})
    as (_ & Hbatch & _).
  destruct (Hbatch Hread) as (l1 & l2 & Hrun & E1 & E2 & H1 & H2).
  exists (entry_record type_1 (py "store.pdf", store_inspection_page)),
         (entry_record type_2 (py "audit.pdf", audit_page_head)).
  assert (L1 : l1 = [entry_record type_1 (py "store.pdf", store_inspection_page)])
    by (rewrite E1; reflexivity).
  assert (L2 : l2 = [entry_record type_2 (py "audit.pdf", audit_page_head)])
    by (rewrite E2; reflexivity).
  rewrite L1 in *. rewrite L2 in *.
  split; [exact Hrun|].
  split; [now inversion H1|].
  split; [now inversion H2|].
  split; reflexivity.
Defined.

(** C4. The store-inspection scenario: the page is classified TypeA
    (["type_1"]); [Inspection] is the line before the marker
    ["Store ID and Name"], the three following labels give their values
    and the eight other rule fields are [None]. *)
Theorem store_inspection_scenario w :
  detect_document_type store_inspection_page w = (Return type_1, w) /\
  extract_data_by_type store_inspection_page type_1 w =
    (Return
       [ ("Inspection", PyStr (py "Jane Doe"));
         ("Store ID and Name", PyStr (py "001 - Main St"));
         ("Tracker", PyStr (py "INS-2024"));
         ("Inspector", PyStr (py "John Smith"));
         ("Project Team PIC", PyNone);
         ("Project Team Present", PyNone);
         ("Contractor PIC", PyNone);
         ("Contractor Present", PyNone);
         ("Issue Date", PyNone);
         ("Inspection Date", PyNone);
         ("Report Date", PyNone);
         ("Handover Date", PyNone);
         ("Document Type", type_1) ]%string, w).
Proof.
  split.
  - rewrite detect_document_type_run. reflexivity.
  - rewrite extract_data_by_type_run. reflexivity.
Qed.

(** C6. Neither function raises, whatever the text and the
    [doc_type]; and on a text in which no field name of the selected
    rule set occurs, every rule field of the record is [None].  The
    empty text and every text without letters are such texts. *)
Theorem core_never_raises text doc_type w :
  (exists ty, detect_document_type text w = (Return ty, w)) /\
  (exists data,
     extract_data_by_type text doc_type w = (Return data, w) /\
     (label_free doc_type text = true ->
      forall field, In field (map fst (patterns_of doc_type)) ->
                    getitem data field = Some PyNone)) /\
  label_free doc_type [] = true /\
  (non_textual text = true -> label_free doc_type text = true).
Proof.
  split; [|split; [|split]]; [| | |apply non_textual_label_free].
  - eexists. apply detect_document_type_run.
  - exists (record_of text doc_type).
    split; [apply extract_data_by_type_run|].
    intros Hfree field Hin.
    apply in_map_iff in Hin as ([f pattern] & Hf & Hin). simpl in Hf. subst f.
    rewrite (getitem_record_of _ _ _ _ Hin).
    now rewrite (label_free_absent _ _ _ _ Hfree Hin).
  - unfold label_free, patterns_of.
    destruct (value_eqb doc_type type_1); vm_compute; reflexivity.
Qed.

Lemma core_never_raises_witness :
  non_textual garbage_page = true /\
  exists data,
    extract_data_by_type garbage_page type_1
      {| last_uploaded := None; processed_data := None |}
    = (Return data, {| last_uploaded := None; processed_data := None |}) /\
    getitem data "Tracker" = Some PyNone.
Proof.
  assert (Hn : non_textual garbage_page = true) by reflexivity.
  split; [exact Hn|].
  destruct (core_never_raises garbage_page type_1
              {| last_uploaded := None; processed_data := None |})
    as (_ & (data & Hrun & Habsent) & _ & Hfree).
  exists data. split; [exact Hrun|].
  apply Habsent; [exact (Hfree Hn)|].
  right. right. left. reflexivity.
Defined.

(** C9. With any [doc_type] other than ["type_1"], [None] included, the
    extraction does not raise: it applies the TypeB rules and stores the
    given [doc_type] unchanged under [Document Type]. *)
Theorem extract_falls_back_to_type_2 text doc_type w :
  doc_type <> type_1 ->
  exists data,
    extract_data_by_type text doc_type w = (Return data, w) /\
    data = map (fun '(field, pattern) => (field, rule_value pattern text))
               PATTERNS_TYPE_2
           ++ [("Document Type"%string, doc_type)] /\
    keys data = map fst PATTERNS_TYPE_2 ++ ["Document Type"%string] /\
    getitem data "Document Type" = Some doc_type.
Proof.
  intros Hne.
  assert (Hp : patterns_of doc_type = PATTERNS_TYPE_2).
  { unfold patterns_of. destruct (value_eqb doc_type type_1) eqn:E;
      [|reflexivity].
    apply value_eqb_eq in E. contradiction. }
  exists (record_of text doc_type).
  split; [apply extract_data_by_type_run|].
  split; [unfold record_of; now rewrite Hp|].
  split; [rewrite keys_record_of; now rewrite Hp|].
  apply getitem_document_type.
Qed.

Lemma extract_falls_back_to_type_2_witness :
  PyNone <> type_1 /\
  exists data,
    extract_data_by_type (py "Site Name\nDepot 7") PyNone
      {| last_uploaded := None; processed_data := None |}
    = (Return data, {| last_uploaded := None; processed_data := None |}) /\
    data = map (fun '(field, pattern) =>
                  (field, rule_value pattern (py "Site Name\nDepot 7")))
               PATTERNS_TYPE_2
           ++ [("Document Type"%string, PyNone)] /\
    keys data = map fst PATTERNS_TYPE_2 ++ ["Document Type"%string] /\
    getitem data "Document Type" = Some PyNone.
Proof.
  assert (H : PyNone <> type_1) by discriminate.
  split; [exact H|].
  exact (extract_falls_back_to_type_2 _ _ _ H).
Defined.

(** ** Whitespace normalisation *)


















(** ** Greedy repetition in front of a continuation that cannot fail *)

Lemma plus_greedy_stops a s g k : stops a s = true -> plus_greedy a s g k = None.
Proof.
  destruct s as [|c s]; simpl; [reflexivity|].
  intros H. apply negb_true_iff in H. now rewrite H.
Qed.

(** The longest run is the first one tried. *)
Lemma plus_greedy_longest a u : forall s' g k res,
  u <> [] -> forallb (atom_match a) u = true -> stops a s' = true ->
  k s' g = Some res -> plus_greedy a (u ++ s') g k = Some res.
Proof.
  induction u as [|c u IH]; intros s' g k res Hne Hall Hstop Hk; [congruence|].
  simpl in Hall. apply andb_prop in Hall as [Hc Hall].
  simpl. rewrite Hc.
  destruct u as [|d u].
  - simpl. now rewrite plus_greedy_stops.
  - rewrite (IH s' g k res); [reflexivity|discriminate|assumption..].
Qed.

Lemma plus_greedy_total a s : forall g k res,
  (forall s', k s' g <> None) ->
  plus_greedy a s g k = Some res ->
  exists u s', s = u ++ s' /\ u <> [] /\ forallb (atom_match a) u = true /\
               stops a s' = true /\ k s' g = Some res.
Proof.
  induction s as [|c s IH]; simpl; intros g k res Hk H; [discriminate|].
  destruct (atom_match a c) eqn:Hc; [|discriminate].
  destruct (plus_greedy a s g k) as [res'|] eqn:E.
  - destruct (IH _ _ _ Hk E) as (u & s' & -> & _ & Hall & Hstop & Hres).
    exists (c :: u), s'. repeat split; simpl; try congruence.
    now rewrite Hc.
  - exists [c], s. repeat split; simpl; try congruence.
    + now rewrite Hc.
    + destruct s as [|d s]; [reflexivity|]. simpl in E |- *.
      destruct (atom_match a d); [|reflexivity].
      destruct (plus_greedy a s g k); [discriminate|].
      now destruct (Hk s).
Qed.

Lemma firstn_consumed (u s' : pystr) :
  firstn (List.length (u ++ s') - List.length s') (u ++ s') = u.
Proof.
  rewrite length_app, Nat.add_sub.
  rewrite firstn_app, Nat.sub_diag, firstn_all. simpl. apply app_nil_r.
Qed.

Lemma skipn_consumed (u s' : pystr) : skipn (List.length u) (u ++ s') = s'.
Proof.
  rewrite skipn_app, Nat.sub_diag, skipn_all. reflexivity.
Qed.

(** ** Leftmost match *)

Lemma search_from_here p i s s' g :
  rmatch (p_regex p) s None accept = Some (s', g) ->
  search_from p i s =
  Some {| m_start := i; m_end := i + (List.length s - List.length s');
          m_groups := p_groups p; m_group1 := g |}.
Proof. intros H. destruct s; simpl; now rewrite H. Qed.

Lemma search_from_skip p pre : forall i s,
  (forall u1 u2, pre = u1 ++ u2 -> u2 <> [] ->
                 rmatch (p_regex p) (u2 ++ s) None accept = None) ->
  search_from p i (pre ++ s) = search_from p (i + List.length pre) s.
Proof.
  induction pre as [|c pre IH]; intros i s Hfail.
  - simpl. now rewrite Nat.add_0_r.
  - assert (H0 : rmatch (p_regex p) (c :: pre ++ s) None accept = None).
    { apply (Hfail [] (c :: pre) eq_refl). discriminate. }
    change ((c :: pre) ++ s) with (c :: pre ++ s). cbn [search_from].
    rewrite H0, IH.
    + f_equal. simpl. lia.
    + intros u1 u2 E Hne. apply (Hfail (c :: u1) u2); [|assumption].
      simpl. now rewrite E.
Qed.

Lemma search_from_leftmost p s : forall i m,
  search_from p i s = Some m ->
  exists u t s',
    s = u ++ t /\
    rmatch (p_regex p) t None accept = Some (s', m_group1 m).
Proof.
  induction s as [|c s IH]; intros i m H; simpl in H.
  - destruct (rmatch (p_regex p) [] None accept) as [[s' g]|] eqn:E;
      [|discriminate].
    inversion H; subst; simpl. now exists [], [], s'.
  - destruct (rmatch (p_regex p) (c :: s) None accept) as [[s' g]|] eqn:E.
    + inversion H; subst; simpl. now exists [], (c :: s), s'.
    + apply IH in H as (u & t & s' & -> & H).
      now exists (c :: u), t, s'.
Qed.

(** ** The shape of the line rules *)

Lemma compile_contractor_name :
  compile "Contractor Present\s+[^\n]+\s+Name\s+([^\n]+)" =
  Some {| p_regex := compound (py "Contractor Present"); p_groups := 1 |}.
Proof. reflexivity. Qed.

Lemma compile_project_pic_name :
  compile "Project PIC Present\s+[^\n]+\s+Name\s+([^\n]+)" =
  Some {| p_regex := compound (py "Project PIC Present"); p_groups := 1 |}.
Proof. reflexivity. Qed.

Lemma compile_contractor_present :
  compile "Contractor Present\s+([^\n]+)" =
  Some {| p_regex := single_line (py "Contractor Present"); p_groups := 1 |}.
Proof. reflexivity. Qed.

Lemma forallb_same {A} (f h : A -> bool) l :
  (forall x, f x = h x) -> forallb f l = forallb h l.
Proof.
  intros E. induction l as [|x l IH]; simpl; [reflexivity|].
  now rewrite E, IH.
Qed.

Lemma atom_match_sp c : atom_match sp c = isspace c.
Proof. simpl. apply orb_false_r. Qed.

Lemma atom_match_not_nl c : atom_match not_nl c = negb (c =? 10)%N.
Proof. simpl. now rewrite orb_false_r. Qed.

Lemma run_spaces u :
  u <> [] -> forallb (atom_match sp) u = true -> spaces u.
Proof.
  intros Hne H. split; [exact Hne|].
  now rewrite <- (forallb_same _ _ u atom_match_sp).
Qed.

Lemma run_one_line u :
  u <> [] -> forallb (atom_match not_nl) u = true -> one_line u.
Proof.
  intros Hne H. split; [exact Hne|].
  now rewrite <- (forallb_same _ _ u atom_match_not_nl).
Qed.

Lemma stops_line_end s : stops not_nl s = true -> line_end s.
Proof.
  destruct s as [|c s]; [intros _; exact I|].
  unfold stops, line_end. rewrite atom_match_not_nl, negb_involutive.
  apply N.eqb_eq.
Qed.

Lemma line_group_shape s g0 s' g' :
  rmatch line_group s g0 accept = Some (s', g') ->
  exists g, s = g ++ s' /\ one_line g /\ g' = Some g /\ line_end s'.
Proof.
  intros H. cbn [line_group rmatch] in H.
  apply plus_greedy_total in H as (u & s1 & -> & Hne & Hall & Hstop & H);
    [|discriminate].
  unfold accept in H. inversion H; subst.
  exists u. repeat split.
  - now apply run_one_line.
  - now apply run_one_line.
  - now rewrite firstn_consumed.
  - now apply stops_line_end.
Qed.

Lemma lit_then_shape l r s g k res :
  rmatch (lit_then l r) s g k = Some res ->
  exists s1, s = l ++ s1 /\ rmatch r s1 g k = Some res.
Proof.
  rewrite rmatch_lit_then. destruct (starts_with l s) eqn:E; [|discriminate].
  apply starts_with_inv in E as [s1 ->]. rewrite skipn_consumed.
  intros H. now exists s1.
Qed.

Lemma compound_match_shape label s s' g' :
  rmatch (compound label) s None accept = Some (s', g') ->
  exists w1 t w2 w3 g,
    s = label ++ w1 ++ t ++ w2 ++ py "Name" ++ w3 ++ g ++ s' /\
    spaces w1 /\ one_line t /\ spaces w2 /\ spaces w3 /\ one_line g /\
    line_end s' /\ g' = Some g.
Proof.
  unfold compound. intros H.
  apply lit_then_shape in H as (s1 & -> & H).
  cbn [rmatch] in H.
  apply plus_greedy_sound in H as (w1 & s2 & -> & Hn1 & Ha1 & H).
  apply plus_greedy_sound in H as (t & s3 & -> & Hn2 & Ha2 & H).
  apply plus_greedy_sound in H as (w2 & s4 & -> & Hn3 & Ha3 & H).
  apply lit_then_shape in H as (s5 & -> & H).
  cbn [rmatch] in H.
  apply plus_greedy_sound in H as (w3 & s6 & -> & Hn4 & Ha4 & H).
  apply line_group_shape in H as (g & -> & Hg & -> & Hend).
  exists w1, t, w2, w3, g. repeat split; try assumption;
    try (now apply run_spaces); try (now apply run_one_line);
    try apply Hg.
Qed.

(** ** The first occurrence of a label *)

Lemma no_early_occurrence l pre rest :
  border_free l = true -> contains l pre = false ->
  forall u1 u2, pre = u1 ++ u2 -> u2 <> [] ->
                starts_with l (u2 ++ l ++ rest) = false.
Proof.
  intros Hb Hc u1 u2 -> Hne.
  destruct (starts_with l (u2 ++ l ++ rest)) eqn:E; [exfalso|reflexivity].
  assert (Hin : forall b, contains l (u1 ++ l ++ b) = true).
  { intros b. apply contains_iff. now exists u1, b. }
  apply starts_with_inv in E as [x E].
  apply app_eq_app in E as [t [[E1 E2]|[E1 E2]]].
  - subst u2. rewrite Hin in Hc. discriminate.
  - destruct t as [|c t].
    + rewrite app_nil_r in E1. subst u2.
      specialize (Hin []). rewrite app_nil_r in Hin.
      rewrite Hin in Hc. discriminate.
    + apply app_eq_app in E2 as [t2 [[E3 E4]|[E3 E4]]].
      * unfold border_free in Hb. rewrite forallb_forall in Hb.
        specialize (Hb (List.length u2)).
        assert (Hk : In (List.length u2) (seq 1 (List.length l - 1))).
        { apply in_seq. rewrite E1 at 1. rewrite length_app. simpl.
          destruct u2; [congruence|]. simpl. lia. }
        apply Hb in Hk. apply negb_true_iff in Hk.
        rewrite E1 in Hk at 1. rewrite skipn_consumed in Hk.
        rewrite E3 in Hk. rewrite starts_with_app in Hk. discriminate.
      * apply (f_equal (@List.length N)) in E1, E3.
        rewrite !length_app in *. simpl in *.
        destruct u2; [congruence|]. simpl in *. lia.
Qed.

Lemma search_after_prefix l r n pre rest i :
  border_free l = true -> contains l pre = false ->
  search_from {| p_regex := lit_then l r; p_groups := n |} i
              (pre ++ l ++ rest)
  = search_from {| p_regex := lit_then l r; p_groups := n |}
                (i + List.length pre) (l ++ rest).
Proof.
  intros Hb Hc. apply search_from_skip. intros u1 u2 E Hne. simpl p_regex.
  rewrite rmatch_lit_then.
  now rewrite (no_early_occurrence l pre rest Hb Hc u1 u2 E Hne).
Qed.

(** ** When the line rules match at a label *)

Lemma spaces_run w : spaces w -> forallb (atom_match sp) w = true.
Proof. intros [_ H]. now rewrite (forallb_same _ _ w atom_match_sp). Qed.

Lemma one_line_run t : one_line t -> forallb (atom_match not_nl) t = true.
Proof. intros [_ H]. now rewrite (forallb_same _ _ t atom_match_not_nl). Qed.

Lemma stops_sp v x : v <> [] -> clean_head v -> stops sp (v ++ x) = true.
Proof.
  destruct v as [|c v]; [congruence|]. intros _ H. simpl in H.
  change (stops sp ((c :: v) ++ x)) with (negb (atom_match sp c)).
  now rewrite atom_match_sp, H.
Qed.

Lemma line_end_stops s : line_end s -> stops not_nl s = true.
Proof.
  destruct s as [|c s]; [reflexivity|]. simpl line_end. intros ->. reflexivity.
Qed.

Lemma stops_not_nl w x : w <> [] -> line_end w -> stops not_nl (w ++ x) = true.
Proof.
  destruct w as [|c w]; [congruence|]. intros _ H.
  apply (line_end_stops (c :: w ++ x)). exact H.
Qed.

Lemma line_group_on g rest g0 :
  one_line g -> line_end rest ->
  rmatch line_group (g ++ rest) g0 accept = Some (rest, Some g).
Proof.
  intros Hg Hend. cbn [line_group rmatch].
  apply plus_greedy_longest.
  - apply Hg.
  - now apply one_line_run.
  - now apply line_end_stops.
  - unfold accept. now rewrite firstn_consumed.
Qed.

(** [label\s+([^\n]+)] at a label followed by whitespace and a line. *)
Lemma single_line_on label w g rest :
  spaces w -> one_line g -> clean_head g -> line_end rest ->
  rmatch (single_line label) (label ++ w ++ g ++ rest) None accept
  = Some (rest, Some g).
Proof.
  intros Hw Hg Hc Hend. unfold single_line.
  rewrite rmatch_lit_then, starts_with_app, skipn_consumed.
  cbn [rmatch]. apply plus_greedy_longest.
  - apply Hw.
  - now apply spaces_run.
  - apply stops_sp; [apply Hg|exact Hc].
  - now apply line_group_on.
Qed.

(** [label\s+[^\n]+\s+Name\s+([^\n]+)] at a label followed by one line,
    a line break, the label [Name] and a line. *)
Lemma compound_on label w1 t w2 w3 g rest :
  spaces w1 -> one_line t -> clean_head t ->
  spaces w2 -> line_end w2 ->
  spaces w3 -> one_line g -> clean_head g -> line_end rest ->
  rmatch (compound label)
         (label ++ w1 ++ t ++ w2 ++ py "Name" ++ w3 ++ g ++ rest) None accept
  = Some (rest, Some g).
Proof.
  intros Hw1 Ht Hct Hw2 Hnl Hw3 Hg Hcg Hend. unfold compound.
  rewrite rmatch_lit_then, starts_with_app, skipn_consumed.
  cbn [rmatch]. apply plus_greedy_longest.
  - apply Hw1.
  - now apply spaces_run.
  - apply stops_sp; [apply Ht|exact Hct].
  - apply plus_greedy_longest.
    + apply Ht.
    + now apply one_line_run.
    + apply stops_not_nl; [apply Hw2|exact Hnl].
    + apply plus_greedy_longest.
      * apply Hw2.
      * now apply spaces_run.
      * reflexivity.
      * rewrite rmatch_lit_then, starts_with_app, skipn_consumed.
        cbn [rmatch]. apply plus_greedy_longest.
        -- apply Hw3.
        -- now apply spaces_run.
        -- apply stops_sp; [apply Hg|exact Hcg].
        -- now apply line_group_on.
Qed.

(** ** The compound rules *)

Lemma rule_value_compound pattern label text v :
  compile pattern = Some {| p_regex := compound label; p_groups := 1 |} ->
  rule_value pattern text = PyStr v -> compound_shape label text v.
Proof.
  intros Hc. unfold rule_value. rewrite Hc.
  destruct (search _ text) as [m|] eqn:E; [|discriminate].
  apply search_from_leftmost in E as (a & t & s' & -> & E).
  simpl p_regex in E.
  apply compound_match_shape in E
    as (w1 & t1 & w2 & w3 & g & -> & H1 & H2 & H3 & H4 & H5 & H6 & Hg).
  rewrite Hg. intros Hv. inversion Hv; subst.
  exists a, w1, t1, w2, w3, g, s'. repeat split; try assumption;
    try apply H1; try apply H2; try apply H3; try apply H4; try apply H5.
Qed.

Lemma contractor_block_values pre post :
  contains (py "Contractor Present") pre = false -> line_end post ->
  rule_value "Contractor Present\s+([^\n]+)" (pre ++ contractor_block ++ post)
    = PyStr (py "Yes") /\
  rule_value "Contractor Present\s+[^\n]+\s+Name\s+([^\n]+)"
             (pre ++ contractor_block ++ post)
    = PyStr (py "Acme Co").
Proof.
  intros Hpre Hend.
  assert (Hb : border_free (py "Contractor Present") = true) by reflexivity.
  assert (Hs : spaces [10%N]) by (split; [discriminate|reflexivity]).
  unfold rule_value.
  rewrite compile_contractor_present, compile_contractor_name.
  unfold search, single_line, compound.
  change (pre ++ contractor_block ++ post)
    with (pre ++ py "Contractor Present" ++
            ([10%N] ++ py "Yes" ++ py "\nName\nAcme Co" ++ post)) at 1.
  change (pre ++ contractor_block ++ post)
    with (pre ++ py "Contractor Present" ++
            ([10%N] ++ py "Yes" ++ [10%N] ++ py "Name" ++ [10%N]
               ++ py "Acme Co" ++ post)).
  rewrite !(search_after_prefix _ _ _ _ _ _ Hb Hpre).
  split.
  - rewrite (search_from_here _ _ _ (py "\nName\nAcme Co" ++ post)
                               (Some (py "Yes"))); [reflexivity|].
    apply (single_line_on (py "Contractor Present")); try assumption;
      try reflexivity; split; try discriminate; reflexivity.
  - rewrite (search_from_here _ _ _ post (Some (py "Acme Co")));
      [reflexivity|].
    apply (compound_on (py "Contractor Present")); try assumption;
      try reflexivity; split; try discriminate; reflexivity.
Qed.

(** C5. The rules [Contractor Name] and [Project PIC Name] are
    compound anchors: whenever one of them stores a value, the text
    holds its section label ([Contractor Present] / [Project PIC
    Present]), whitespace, one line, whitespace, the label [Name],
    whitespace and the captured line up to its end.  On a text whose
    first [Contractor Present] opens the block
    ["Contractor Present\nYes\nName\nAcme Co"], the block ending the
    text or its line, the extraction gives [Contractor Present = "Yes"]
    and [Contractor Name = "Acme Co"]. *)
Theorem compound_name_rules text pre post w :
  contains (py "Contractor Present") pre = false -> line_end post ->
  (exists data,
     extract_data_by_type text type_2 w = (Return data, w) /\
     (forall v, getitem data "Contractor Name" = Some (PyStr v) ->
                compound_shape (py "Contractor Present") text v) /\
     (forall v, getitem data "Project PIC Name" = Some (PyStr v) ->
                compound_shape (py "Project PIC Present") text v)) /\
  (exists data,
     extract_data_by_type (pre ++ contractor_block ++ post) type_2 w
       = (Return data, w) /\
     getitem data "Contractor Present" = Some (PyStr (py "Yes")) /\
     getitem data "Contractor Name" = Some (PyStr (py "Acme Co"))).
Proof.
  intros Hpre Hend.
  assert (Hcp : In ("Contractor Present", "Contractor Present\s+([^\n]+)")%string
                   (patterns_of type_2)).
  { do 4 right. left. reflexivity. }
  assert (Hcn : In ("Contractor Name",
                    "Contractor Present\s+[^\n]+\s+Name\s+([^\n]+)")%string
                   (patterns_of type_2)).
  { do 5 right. left. reflexivity. }
  assert (Hpn : In ("Project PIC Name",
                    "Project PIC Present\s+[^\n]+\s+Name\s+([^\n]+)")%string
                   (patterns_of type_2)).
  { do 7 right. left. reflexivity. }
  split.
  - exists (record_of text type_2).
    split; [apply extract_data_by_type_run|]. split; intros v Hv.
    + rewrite (getitem_record_of _ _ _ _ Hcn) in Hv. inversion Hv as [Hr].
      exact (rule_value_compound _ _ _ _ compile_contractor_name Hr).
    + rewrite (getitem_record_of _ _ _ _ Hpn) in Hv. inversion Hv as [Hr].
      exact (rule_value_compound _ _ _ _ compile_project_pic_name Hr).
  - exists (record_of (pre ++ contractor_block ++ post) type_2).
    split; [apply extract_data_by_type_run|].
    destruct (contractor_block_values pre post Hpre Hend) as [H1 H2].
    rewrite (getitem_record_of _ _ _ _ Hcp), (getitem_record_of _ _ _ _ Hcn).
    now rewrite H1, H2.
Qed.

Lemma compound_name_rules_witness :
  contains (py "Contractor Present") audit_page_head = false /\
  line_end [] /\
  exists data,
    extract_data_by_type (audit_page_head ++ contractor_block ++ []) type_2
      {| last_uploaded := None; processed_data := None |}
    = (Return data, {| last_uploaded := None; processed_data := None |}) /\
    getitem data "Contractor Present" = Some (PyStr (py "Yes")) /\
    getitem data "Contractor Name" = Some (PyStr (py "Acme Co")).
Proof.
  assert (H1 : contains (py "Contractor Present") audit_page_head = false)
    by reflexivity.
  assert (H2 : line_end []) by exact I.
  split; [exact H1|]. split; [exact H2|].
  exact (proj2 (compound_name_rules [] audit_page_head [] _ H1 H2)).
Defined.

(** Not every text containing the block gives these two values: only
    the first match of a pattern is used and the captured line runs to
    its end.  A page with an earlier [Contractor Present] section gives that
    section's values, and a page on which the line goes on after
    ["Acme Co"] gives the whole line. *)
Lemma compound_name_rules_counterexample :
  contains contractor_block two_sections_page = true /\
  getitem (record_of two_sections_page type_2) "Contractor Present"
    = Some (PyStr (py "No")) /\
  getitem (record_of two_sections_page type_2) "Contractor Name"
    = Some (PyStr (py "Bob")) /\
  contains contractor_block longer_line_page = true /\
  getitem (record_of longer_line_page type_2) "Contractor Name"
    = Some (PyStr (py "Acme Co Ltd")) /\
  ~ (forall text w data,
       contains contractor_block text = true ->
       extract_data_by_type text type_2 w = (Return data, w) ->
       getitem data "Contractor Present" = Some (PyStr (py "Yes")) /\
       getitem data "Contractor Name" = Some (PyStr (py "Acme Co"))).
Proof.
  repeat split; try reflexivity.
  intros H.
  destruct (H two_sections_page
              {| last_uploaded := None; processed_data := None |}
              (record_of two_sections_page type_2) eq_refl
              (extract_data_by_type_run _ _ _)) as [H1 _].
  vm_compute in H1. discriminate.
Qed.

(** ** A label followed by spaces only *)

Lemma compile_inspector :
  compile "Inspector\s+([^\n]+)" =
  Some {| p_regex := single_line (py "Inspector"); p_groups := 1 |}.
Proof. reflexivity. Qed.

(** With two spaces or more left, [\s+] takes them all, finds nothing
    for the group, and gives the last one back. *)
Lemma greedy_gives_back n g0 :
  plus_greedy sp (repeat 32%N (S (S n))) g0
    (fun s' g' => rmatch line_group s' g' accept)
  = Some ([], Some [32%N]).
Proof.
  induction n as [|n IH]; [reflexivity|].
  change (repeat 32%N (S (S (S n)))) with (32%N :: repeat 32%N (S (S n))).
  cbn [plus_greedy]. rewrite IH. reflexivity.
Qed.

Lemma spaces_after_label label n :
  rmatch (single_line label) (label ++ repeat 32%N (S (S n))) None accept
  = Some ([], Some [32%N]).
Proof.
  unfold single_line.
  rewrite rmatch_lit_then, starts_with_app, skipn_consumed.
  cbn [rmatch]. apply greedy_gives_back.
Qed.

(** C10. A field can hold the empty string, which is not [None]: on
    the label [Inspector] followed by two spaces at the end of the text
    the pattern matches with a group made of one space, and the value
    stored after trimming and collapsing is [""].  The same holds with
    any larger number of spaces after the label. *)
Theorem present_empty_value n w :
  (exists p m data,
     compile "Inspector\s+([^\n]+)" = Some p /\
     search p (py "Inspector  ") = Some m /\
     m_group1 m = Some (py " ") /\
     extract_data_by_type (py "Inspector  ") type_1 w = (Return data, w) /\
     getitem data "Inspector" = Some (PyStr []) /\
     PyStr [] <> PyNone) /\
  (exists data,
     extract_data_by_type (py "Inspector" ++ repeat 32%N (S (S n))) type_1 w
       = (Return data, w) /\
     getitem data "Inspector" = Some (PyStr [])).
Proof.
  split.
  - eexists _, _, _.
    split; [reflexivity|].
    split; [vm_compute; reflexivity|].
    split; [reflexivity|].
    split; [apply extract_data_by_type_run|].
    split; [vm_compute; reflexivity|discriminate].
  - eexists. split; [apply extract_data_by_type_run|].
    assert (Hin : In ("Inspector", "Inspector\s+([^\n]+)")%string
                     (patterns_of type_1)).
    { do 3 right. left. reflexivity. }
    rewrite (getitem_record_of _ _ _ _ Hin).
    unfold rule_value. rewrite compile_inspector. unfold search.
    rewrite (search_from_here _ _ _ [] (Some [32%N]));
      [reflexivity|apply spaces_after_label].
Qed.

(** * The rest of the application *)

(** ** The batch loop, entry by entry *)

Lemma getitem_entry_source doc_type entry :
  getitem (entry_record doc_type entry) "Source File"
  = Some (PyStr (fst entry)).
Proof.
  unfold entry_record. rewrite getitem_app, getitem_none; [reflexivity|].
  rewrite keys_record_of. intros Hin.
  apply in_app_or in Hin as [Hin|[Hin|[]]]; [|discriminate].
  revert Hin. apply table_fresh. right. now left.
Qed.

Lemma getitem_entry_type doc_type entry :
  getitem (entry_record doc_type entry) "Document Type" = Some doc_type.
Proof.
  unfold entry_record. now rewrite getitem_app, getitem_document_type.
Qed.

Lemma bucket_app doc_type a b :
  bucket doc_type (a ++ b) = bucket doc_type a ++ bucket doc_type b.
Proof. unfold bucket. now rewrite filter_app, map_app. Qed.

Lemma buckets_count pdf_files :
  List.length (filter (has_type type_1) pdf_files)
  + List.length (filter (has_type type_2) pdf_files)
  + List.length (filter (has_type PyNone) pdf_files)
  = List.length pdf_files.
Proof.
  induction pdf_files as [|entry rest IH]; [reflexivity|].
  assert (Hf : forall ty,
             filter (has_type ty) (entry :: rest) =
             if value_eqb (doc_type_of (snd entry)) ty
             then entry :: filter (has_type ty) rest
             else filter (has_type ty) rest) by reflexivity.
  rewrite !Hf. clear Hf.
  destruct (doc_type_of_cases (snd entry)) as [E|[E|E]]; rewrite E.
  - change (value_eqb type_2 type_1) with false.
    change (value_eqb type_2 type_2) with true.
    change (value_eqb type_2 PyNone) with false. cbv iota. cbn [List.length]. lia.
  - change (value_eqb type_1 type_1) with true.
    change (value_eqb type_1 type_2) with false.
    change (value_eqb type_1 PyNone) with false. cbv iota. cbn [List.length]. lia.
  - change (value_eqb PyNone type_1) with false.
    change (value_eqb PyNone type_2) with false.
    change (value_eqb PyNone PyNone) with true. cbv iota. cbn [List.length]. lia.
Qed.

Lemma find_entry_none z name :
  find_entry z name = None <-> ~ In name (namelist z).
Proof.
  induction z as [|[n p] z' IH]; [simpl; tauto|].
  cbn [find_entry namelist map fst In]. fold (namelist z').
  destruct (find_entry z' name) as [q|].
  - split; [discriminate|]. intros H. exfalso. apply H. right.
    destruct (in_dec (list_eq_dec N.eq_dec) name (namelist z')) as [Hin|Hin];
      [exact Hin|]. apply IH in Hin. discriminate.
  - destruct (pystr_eqb n name) eqn:E.
    + apply pystr_eqb_eq in E. split; [discriminate|]. intros H.
      exfalso. apply H. now left.
    + split; [|reflexivity]. intros _ [H|H].
      * apply pystr_eqb_eq in H. congruence.
      * revert H. now apply IH.
Qed.

Lemma find_entry_app z1 z2 name :
  find_entry (z1 ++ z2) name =
  match find_entry z2 name with
  | Some p => Some p
  | None => find_entry z1 name
  end.
Proof.
  induction z1 as [|[n p] z1 IH];
    [cbn [app find_entry]; now destruct (find_entry z2 name)|].
  cbn [app find_entry]. rewrite IH.
  now destruct (find_entry z2 name).
Qed.


Lemma z_read_listed z name :
  In name (namelist z) -> find_entry z name = Some (z_read z name).
Proof.
  intros Hin. unfold z_read.
  destruct (find_entry z name) eqn:E; [reflexivity|].
  apply find_entry_none in E. contradiction.
Qed.

Lemma listing_names lower z :
  map fst (listing lower z) = pdf_names lower z.
Proof.
  unfold listing. rewrite map_map. cbn [fst]. apply map_id.
Qed.

Lemma pdf_names_app lower z1 z2 :
  pdf_names lower (z1 ++ z2) = pdf_names lower z1 ++ pdf_names lower z2.
Proof. unfold pdf_names, namelist. now rewrite map_app, filter_app. Qed.

Lemma pdf_names_listed lower z name :
  In name (pdf_names lower z) ->
  In name (namelist z) /\ endswith (lower name) (py ".pdf") = true.
Proof. unfold pdf_names. intros H. now apply filter_In in H. Qed.

Lemma listing_app lower z1 z2 :
  (forall name, In name (namelist z1) -> ~ In name (namelist z2)) ->
  listing lower (z1 ++ z2) = listing lower z1 ++ listing lower z2.
Proof.
  intros Hdisjoint. unfold listing. rewrite pdf_names_app, map_app.
  f_equal; apply map_ext_in; intros name Hin;
    apply pdf_names_listed in Hin as [Hin _];
    unfold z_read; rewrite find_entry_app.
  - apply Hdisjoint, find_entry_none in Hin. now rewrite Hin.
  - now rewrite (z_read_listed _ _ Hin).
Qed.

Lemma first_failure_app a b :
  first_failure (a ++ b) =
  match first_failure a with
  | Some message => Some message
  | None => first_failure b
  end.
Proof.
  induction a as [|[name [text|message]] a IH]; [reflexivity| |reflexivity].
  exact IH.
Qed.

Lemma readable_app a b : readable (a ++ b) = readable a ++ readable b.
Proof. unfold readable. apply flat_map_app. Qed.

Lemma readable_names pdf_files :
  first_failure pdf_files = None ->
  map fst (readable pdf_files) = map fst pdf_files.
Proof.
  induction pdf_files as [|[name [text|message]] rest IH];
    [reflexivity| |discriminate].
  intros H. change (readable ((name, Readable text) :: rest))
    with ((name, text) :: readable rest).
  cbn [map fst]. f_equal. now apply IH.
Qed.

Lemma readable_as_pages pdf_files : readable (as_pages pdf_files) = pdf_files.
Proof.
  induction pdf_files as [|[name text] rest IH]; [reflexivity|].
  change (readable (as_pages ((name, text) :: rest)))
    with ((name, text) :: readable (as_pages rest)).
  now rewrite IH.
Qed.

Lemma first_failure_as_pages pdf_files :
  first_failure (as_pages pdf_files) = None.
Proof. induction pdf_files as [|[name text] rest IH]; [reflexivity|exact IH]. Qed.

(** X1. What [process_zip_file] comes to.  Bytes that are no archive
    raise.  Of an archive the entries whose lower-cased name ends in
    [.pdf] are read in turn, and the first that cannot be read raises:
    nothing is returned, whatever the entries before it gave.  When all
    of them can be read, the result holds, for each of the two types,
    the records of the entries the classifier gives that type, in the
    order of the archive; an entry with neither marker gives no record.
    The session is never touched. *)
Theorem process_zip_file_buckets lower uploaded_zip_bytes w :
  (forall text, detect_document_type text w = (Return (doc_type_of text), w)) /\
  process_zip_file lower uploaded_zip_bytes w =
  match uploaded_zip_bytes with
  | BadZip message => (Raise (ReadError message), w)
  | Zip z =>
      let pdf_files :=
        map (fun pdf_name => (pdf_name, z_read z pdf_name))
            (filter (fun f => endswith (lower f) (py ".pdf")) (map fst z)) in
      match first_failure pdf_files with
      | Some message => (Raise (ReadError message), w)
      | None =>
          (Return
             (map (entry_record type_1)
                  (filter (has_type type_1) (readable pdf_files)),
              map (entry_record type_2)
                  (filter (has_type type_2) (readable pdf_files))), w)
      end
  end.
Proof.
  split; [intros text; apply detect_document_type_run|].
  rewrite process_zip_file_run.
  destruct uploaded_zip_bytes as [z|message]; [|reflexivity].
  unfold batch_outcome. cbv zeta.
  change (map (fun pdf_name => (pdf_name, z_read z pdf_name))
            (filter (fun f => endswith (lower f) (py ".pdf")) (map fst z)))
    with (listing lower z).
  now destruct (first_failure (listing lower z)).
Qed.

(** X2. In a result [process_zip_file] returns, every record of the
    first list carries [Document Type = "type_1"], every record of the
    second ["type_2"]; the [Source File] values of a list are the names
    of the entries of that type, in order; and the listed entries are
    split without loss between the two lists and the skipped ones. *)
Theorem process_zip_file_metadata lower z w all_data_type_1 all_data_type_2 w' :
  process_zip_file lower (Zip z) w
    = (Return (all_data_type_1, all_data_type_2), w') ->
  w' = w /\
  Forall (fun data => getitem data "Document Type" = Some type_1)
         all_data_type_1 /\
  Forall (fun data => getitem data "Document Type" = Some type_2)
         all_data_type_2 /\
  map (fun data => getitem data "Source File") all_data_type_1
    = map (fun entry => Some (PyStr (fst entry)))
          (filter (has_type type_1) (readable (listing lower z))) /\
  map (fun data => getitem data "Source File") all_data_type_2
    = map (fun entry => Some (PyStr (fst entry)))
          (filter (has_type type_2) (readable (listing lower z))) /\
  map fst (readable (listing lower z))
    = filter (fun f => endswith (lower f) (py ".pdf")) (namelist z) /\
  List.length all_data_type_1 + List.length all_data_type_2
    + List.length (filter (has_type PyNone) (readable (listing lower z)))
    = List.length (filter (fun f => endswith (lower f) (py ".pdf"))
                          (namelist z)).
Proof.
  intros Hrun. apply process_zip_file_returns in Hrun as (Hread & Hw & Hres).
  inversion Hres; subst. clear Hres.
  assert (Hnames : map fst (readable (listing lower z))
                   = filter (fun f => endswith (lower f) (py ".pdf"))
                            (namelist z)).
  { rewrite (readable_names _ Hread). apply listing_names. }
  unfold bucket. repeat split.
  - apply Forall_map, Forall_forall. intros e _. apply getitem_entry_type.
  - apply Forall_map, Forall_forall. intros e _. apply getitem_entry_type.
  - rewrite map_map. apply map_ext. intros e. apply getitem_entry_source.
  - rewrite map_map. apply map_ext. intros e. apply getitem_entry_source.
  - exact Hnames.
  - rewrite !length_map, buckets_count.
    rewrite <- Hnames. now rewrite length_map.
Qed.

Lemma process_zip_file_metadata_witness :
  exists data_1 data_2,
    process_zip_file ascii_lower (Zip sample_zip)
      {| last_uploaded := None; processed_data := None |}
    = (Return ([data_1], [data_2]),
       {| last_uploaded := None; processed_data := None |}) /\
    getitem data_1 "Document Type" = Some type_1 /\
    getitem data_2 "Document Type" = Some type_2 /\
    map fst (readable (listing ascii_lower sample_zip))
    = [py "store.pdf"; py "blank.PDF"; py "audit.pdf"].
Proof.
  exists (entry_record type_1 (py "store.pdf", store_inspection_page)),
         (entry_record type_2 (py "audit.pdf", audit_page_head)).
  assert (Hrun : process_zip_file ascii_lower (Zip sample_zip)
                   {| last_uploaded := None; processed_data := None |}
                 = (Return
                      ([entry_record type_1 (py "store.pdf", store_inspection_page)],
                       [entry_record type_2 (py "audit.pdf", audit_page_head)]),
                    {| last_uploaded := None; processed_data := None |})).
  { rewrite process_zip_file_run. reflexivity. }
  split; [exact Hrun|].
  destruct (process_zip_file_metadata _ _ _ _ _ _ Hrun)
    as (_ & H1 & H2 & _ & _ & Hnames & _).
  split; [now inversion H1|].
  split; [now inversion H2|].
  rewrite Hnames. reflexivity.
Defined.

(** X3. The loop keeps nothing from one entry to the next, but it reads
    by name: when no name of the first archive is a name of the second
    and each of them is processed without failure, the result for the
    two put end to end is the result for the first followed, list by
    list, by the result for the second. *)
Theorem process_zip_file_app lower z1 z2 w a1 a2 b1 b2 :
  (forall name, In name (namelist z1) -> ~ In name (namelist z2)) ->
  process_zip_file lower (Zip z1) w = (Return (a1, a2), w) ->
  process_zip_file lower (Zip z2) w = (Return (b1, b2), w) ->
  process_zip_file lower (Zip (z1 ++ z2)) w = (Return (a1 ++ b1, a2 ++ b2), w).
Proof.
  intros Hdisjoint H1 H2.
  apply process_zip_file_returns in H1 as (Hr1 & _ & E1).
  apply process_zip_file_returns in H2 as (Hr2 & _ & E2).
  inversion E1; inversion E2; subst.
  rewrite process_zip_file_run. unfold batch_outcome.
  rewrite (listing_app _ _ _ Hdisjoint), first_failure_app, Hr1, Hr2.
  now rewrite readable_app, !bucket_app.
Qed.

Lemma process_zip_file_app_witness :
  process_zip_file ascii_lower
    (Zip ([(py "store.pdf", Readable store_inspection_page)]
          ++ [(py "audit.pdf", Readable audit_page_head)]))
    {| last_uploaded := None; processed_data := None |}
  = (Return
       ([entry_record type_1 (py "store.pdf", store_inspection_page)] ++ [],
        [] ++ [entry_record type_2 (py "audit.pdf", audit_page_head)]),
     {| last_uploaded := None; processed_data := None |}).
Proof.
  apply process_zip_file_app.
  - intros name [H|[]] [H'|[]]. rewrite <- H in H'. discriminate.
  - rewrite process_zip_file_run. reflexivity.
  - rewrite process_zip_file_run. reflexivity.
Defined.



(** ** Labels a rule cannot do without *)

Lemma labels_needed_checked doc_type : labels_checked doc_type = true.
Proof.
  unfold labels_checked, labels_needed, patterns_of.
  destruct (value_eqb doc_type type_1); vm_compute; reflexivity.
Qed.

(** X4. A rule stores [None] as soon as one of the labels of its
    pattern is missing from the text, its own or another one: without
    [Tracker] there is no [Store ID and Name] value, without
    [Inspector] no [Tracker] value, without [Contractor Present] no
    [Location], without [Name] neither of the two name fields. *)
Theorem missing_label_blanks_field text doc_type w field label :
  In (field, label) (labels_needed doc_type) ->
  contains (raw label) text = false ->
  exists data,
    extract_data_by_type text doc_type w = (Return data, w) /\
    getitem data field = Some PyNone.
Proof.
  intros Hin Habsent.
  exists (record_of text doc_type).
  split; [apply extract_data_by_type_run|].
  pose proof (labels_needed_checked doc_type) as Hc.
  unfold labels_checked in Hc. rewrite forallb_forall in Hc.
  specialize (Hc _ Hin). simpl in Hc.
  apply existsb_exists in Hc as ([field' pattern] & Hrule & Hc).
  apply andb_prop in Hc as [Hf Hneeds].
  apply String.eqb_eq in Hf. subst field'.
  rewrite (getitem_record_of _ _ _ _ Hrule).
  now rewrite (rule_value_absent _ _ _ Hneeds Habsent).
Qed.

Lemma missing_label_blanks_field_witness :
  In ("Store ID and Name", "Tracker")%string (labels_needed type_1) /\
  contains (raw "Tracker") store_only_page = false /\
  exists data,
    extract_data_by_type store_only_page type_1
      {| last_uploaded := None; processed_data := None |}
    = (Return data, {| last_uploaded := None; processed_data := None |}) /\
    getitem data "Store ID and Name" = Some PyNone.
Proof.
  assert (H1 : In ("Store ID and Name", "Tracker")%string
                  (labels_needed type_1)).
  { right. right. left. reflexivity. }
  assert (H2 : contains (raw "Tracker") store_only_page = false)
    by reflexivity.
  split; [exact H1|]. split; [exact H2|].
  exact (missing_label_blanks_field _ _ _ _ _ H1 H2).
Defined.

(** ** Classification of a text inside a longer one *)

Lemma contains_inside l a t b :
  contains l t = true -> contains l (a ++ t ++ b) = true.
Proof.
  rewrite !contains_iff. intros (x & y & ->).
  exists (a ++ x), (y ++ b). now rewrite <- !app_assoc.
Qed.

(** X5. Text added before or after a page never makes a recognised
    page unknown, and never turns a TypeB page into a TypeA one. *)
Theorem detect_document_type_inside a t b w :
  detect_document_type t w <> (Return PyNone, w) ->
  detect_document_type (a ++ t ++ b) w <> (Return PyNone, w) /\
  (detect_document_type t w = (Return type_2, w) ->
   detect_document_type (a ++ t ++ b) w = (Return type_2, w)).
Proof.
  rewrite !detect_document_type_run. intros H.
  destruct (contains (py "Document No.") t) eqn:E1.
  - rewrite (contains_inside _ a t b E1). split; [discriminate|reflexivity].
  - destruct (contains (py "Store ID and Name") t) eqn:E2; [|congruence].
    rewrite (contains_inside _ a t b E2). split; [|discriminate].
    destruct (contains (py "Document No.") (a ++ t ++ b)); discriminate.
Qed.

Lemma detect_document_type_inside_witness :
  detect_document_type (py "Store ID and Name")
    {| last_uploaded := None; processed_data := None |}
  <> (Return PyNone, {| last_uploaded := None; processed_data := None |}) /\
  detect_document_type (py "Cover\n" ++ py "Store ID and Name" ++ py "\n001")
    {| last_uploaded := None; processed_data := None |}
  <> (Return PyNone, {| last_uploaded := None; processed_data := None |}).
Proof.
  assert (H : detect_document_type (py "Store ID and Name")
                {| last_uploaded := None; processed_data := None |}
              <> (Return PyNone,
                  {| last_uploaded := None; processed_data := None |})).
  { rewrite detect_document_type_run. discriminate. }
  split; [exact H|].
  exact (proj1 (detect_document_type_inside _ _ _ _ H)).
Defined.

(** ** The script around the batch *)

Lemma same_upload_iff stored name :
  same_upload stored name = true <-> stored = Some name.
Proof.
  destruct stored as [n|]; simpl; [|split; discriminate].
  rewrite pystr_eqb_eq. split; congruence.
Qed.

Lemma run_script_fresh lower name uploaded_bytes w :
  processed_data w = None \/ last_uploaded w <> Some name ->
  run_script lower name uploaded_bytes w =
  match batch_outcome lower uploaded_bytes with
  | Return result =>
      (Return result,
       {| last_uploaded := Some name; processed_data := Some result |})
  | Raise e =>
      (Raise e,
       {| last_uploaded := Some name; processed_data := processed_data w |})
  end.
Proof.
  intros H. unfold run_script, bind, session.
  assert (Hp : forall w0,
    (let (o, w') := set_last_uploaded name w0 in
     match o with
     | Return _ =>
         let (o0, w'0) := process_zip_file lower uploaded_bytes w' in
         match o0 with
         | Return a0 =>
             let (o1, w'1) := set_processed_data a0 w'0 in
             match o1 with
             | Return _ => ret a0 w'1
             | Raise e => (Raise e, w'1)
             end
         | Raise e => (Raise e, w'0)
         end
     | Raise e => (Raise e, w')
     end) =
    match batch_outcome lower uploaded_bytes with
    | Return result =>
        (Return result,
         {| last_uploaded := Some name; processed_data := Some result |})
    | Raise e =>
        (Raise e,
         {| last_uploaded := Some name; processed_data := processed_data w0 |})
    end).
  { intros w0. unfold set_last_uploaded.
    rewrite process_zip_file_run.
    now destruct (batch_outcome lower uploaded_bytes). }
  destruct (processed_data w) as [cached|] eqn:Ep.
  - destruct (same_upload (last_uploaded w) name) eqn:Es.
    + apply same_upload_iff in Es. destruct H; congruence.
    + cbn [negb]. rewrite <- Ep. apply Hp.
  - rewrite <- Ep. apply Hp.
Qed.

Lemma run_script_cached lower name uploaded_bytes w cached :
  processed_data w = Some cached -> last_uploaded w = Some name ->
  run_script lower name uploaded_bytes w = (Return cached, w).
Proof.
  intros Hp Hn. unfold run_script, bind, session. rewrite Hp.
  apply same_upload_iff in Hn. rewrite Hn. reflexivity.
Qed.

Lemma process_zip_file_outcome lower uploaded_bytes w :
  fst (process_zip_file lower uploaded_bytes w)
  = batch_outcome lower uploaded_bytes.
Proof. now rewrite process_zip_file_run. Qed.

(** X6. A run of the script with an uploaded archive.  When the session
    holds a result and the name of the archive, that result is shown
    and the session is left as it was.  Otherwise the name is stored
    and the archive processed: when [process_zip_file] returns, its
    result is stored and shown; when it raises, the run ends with that
    exception, and the session keeps the new name together with
    whatever result it held before. *)
Theorem run_script_session lower name uploaded_bytes w :
  (forall cached,
     processed_data w = Some cached -> last_uploaded w = Some name ->
     run_script lower name uploaded_bytes w = (Return cached, w)) /\
  (processed_data w = None \/ last_uploaded w <> Some name ->
   let named := {| last_uploaded := Some name;
                   processed_data := processed_data w |} in
   run_script lower name uploaded_bytes w =
   match process_zip_file lower uploaded_bytes named with
   | (Return result, _) =>
       (Return result,
        {| last_uploaded := Some name; processed_data := Some result |})
   | (Raise e, _) => (Raise e, named)
   end).
Proof.
  split.
  - intros cached. apply run_script_cached.
  - intros H named. rewrite (run_script_fresh _ _ _ _ H).
    rewrite process_zip_file_run.
    now destruct (batch_outcome lower uploaded_bytes).
Qed.

Lemma run_script_session_witness :
  run_script ascii_lower (py "a.zip") (Zip broken_zip)
    {| last_uploaded := Some (py "b.zip"); processed_data := Some ([], []) |}
  = (Raise (ReadError (py "Failed to load document")),
     {| last_uploaded := Some (py "a.zip"); processed_data := Some ([], []) |}).
Proof.
  destruct (run_script_session ascii_lower (py "a.zip") (Zip broken_zip)
              {| last_uploaded := Some (py "b.zip");
                 processed_data := Some ([], []) |}) as [_ Hfresh].
  rewrite Hfresh by (right; discriminate).
  rewrite process_zip_file_run. reflexivity.
Defined.

(** X7. The stored result is keyed by the name of the archive alone.
    After a run that processed an archive, a second run with an archive
    of the same name shows the result of the first, whatever the second
    archive holds.  After a run that failed, the session holds the name
    of the failed archive with the result it held before: a second run
    under that name shows this older result, that of another archive,
    without processing anything; only when there was none does it
    process its archive.  An archive with another name is processed. *)
Theorem run_script_same_name lower name first second w :
  processed_data w = None \/ last_uploaded w <> Some name ->
  exists o w1,
    run_script lower name first w = (o, w1) /\
    last_uploaded w1 = Some name /\
    match o, processed_data w with
    | Return result, _ =>
        processed_data w1 = Some result /\
        run_script lower name second w1 = (Return result, w1)
    | Raise _, Some stale =>
        processed_data w1 = Some stale /\
        run_script lower name second w1 = (Return stale, w1)
    | Raise _, None =>
        processed_data w1 = None /\
        fst (run_script lower name second w1)
        = fst (process_zip_file lower second w1)
    end /\
    (forall other,
       other <> name ->
       fst (run_script lower other second w1)
       = fst (process_zip_file lower second w1)).
Proof.
  intros Hfresh. rewrite (run_script_fresh _ _ _ _ Hfresh).
  assert (Hother : forall w1, last_uploaded w1 = Some name ->
            forall other, other <> name ->
            fst (run_script lower other second w1)
            = fst (process_zip_file lower second w1)).
  { intros w1 Hn other Hne. rewrite process_zip_file_outcome.
    rewrite run_script_fresh by (right; congruence).
    now destruct (batch_outcome lower second). }
  destruct (batch_outcome lower first) as [result|e].
  - eexists _, _. split; [reflexivity|]. split; [reflexivity|]. split.
    + split; [reflexivity|]. now apply run_script_cached.
    + now apply Hother.
  - eexists _, _. split; [reflexivity|]. split; [reflexivity|]. split.
    + cbn [processed_data]. destruct (processed_data w) as [stale|] eqn:Ep.
      * split; [reflexivity|]. now apply run_script_cached.
      * split; [reflexivity|]. rewrite process_zip_file_outcome.
        rewrite run_script_fresh by (now left).
        now destruct (batch_outcome lower second).
    + now apply Hother.
Qed.

Lemma run_script_same_name_witness :
  exists w1,
    run_script ascii_lower (py "a.zip") (BadZip (py "File is not a zip file"))
      {| last_uploaded := Some (py "b.zip");
         processed_data :=
           Some ([entry_record type_1 (py "old.pdf", store_only_page)], []) |}
    = (Raise (ReadError (py "File is not a zip file")), w1) /\
    run_script ascii_lower (py "a.zip") (Zip sample_zip) w1
    = (Return ([entry_record type_1 (py "old.pdf", store_only_page)], []), w1).
Proof.
  destruct (run_script_same_name ascii_lower (py "a.zip")
              (BadZip (py "File is not a zip file")) (Zip sample_zip)
              {| last_uploaded := Some (py "b.zip");
                 processed_data :=
                   Some ([entry_record type_1 (py "old.pdf", store_only_page)],
                         []) |})
    as (o & w1 & Hrun & _ & Hsecond & _); [right; discriminate|].
  exists w1.
  assert (Ho : o = Raise (ReadError (py "File is not a zip file"))).
  { rewrite run_script_fresh in Hrun by (right; discriminate).
    now inversion Hrun. }
  rewrite Ho in *. split; [exact Hrun|]. exact (proj2 Hsecond).
Defined.

Lemma truthy_bucket doc_type pdf_files :
  truthy (bucket doc_type pdf_files) = existsb (has_type doc_type) pdf_files.
Proof.
  induction pdf_files as [|entry rest IH]; [reflexivity|].
  rewrite bucket_cons. cbn [existsb]. unfold has_type at 1.
  destruct (value_eqb (doc_type_of (snd entry)) doc_type); [reflexivity|].
  exact IH.
Qed.

Lemma display_of_buckets pdf_files :
  shows_type_1 (display_of (bucket type_1 pdf_files, bucket type_2 pdf_files))
  = existsb (has_type type_1) pdf_files /\
  shows_type_2 (display_of (bucket type_1 pdf_files, bucket type_2 pdf_files))
  = existsb (has_type type_2) pdf_files /\
  shows_no_data (display_of (bucket type_1 pdf_files, bucket type_2 pdf_files))
  = forallb (has_type PyNone) pdf_files.
Proof.
  unfold display_of. cbn [shows_type_1 shows_type_2 shows_no_data].
  rewrite !truthy_bucket. repeat split.
  induction pdf_files as [|entry rest IH]; [reflexivity|].
  cbn [existsb forallb]. rewrite <- IH. unfold has_type at 1 3 5.
  destruct (doc_type_of_cases (snd entry)) as [E|[E|E]]; rewrite E;
    cbn; try reflexivity.
  now destruct (existsb (has_type type_1) rest).
Qed.

(** X8. What [app.py] shows after a run that processed an archive:
    every listed entry could be read, the table of a type is shown
    exactly when some entry has that type, and the notice that no data
    was extracted exactly when no listed entry holds a marker.  A run
    in which an entry cannot be read shows none of them, whatever the
    other entries hold. *)
Theorem display_after_processing lower name z w :
  processed_data w = None \/ last_uploaded w <> Some name ->
  match run_script lower name (Zip z) w with
  | (Return result, _) =>
      first_failure (listing lower z) = None /\
      shows_type_1 (display_of result)
      = existsb (has_type type_1) (readable (listing lower z)) /\
      shows_type_2 (display_of result)
      = existsb (has_type type_2) (readable (listing lower z)) /\
      shows_no_data (display_of result)
      = forallb (has_type PyNone) (readable (listing lower z))
  | (Raise e, _) =>
      exists message,
        e = ReadError message /\
        first_failure (listing lower z) = Some message
  end.
Proof.
  intros Hfresh. rewrite (run_script_fresh _ _ _ _ Hfresh).
  unfold batch_outcome.
  destruct (first_failure (listing lower z)) as [message|].
  - now exists message.
  - split; [reflexivity|]. apply display_of_buckets.
Qed.

Lemma display_after_processing_witness :
  fst (run_script ascii_lower (py "a.zip") (Zip broken_zip)
         {| last_uploaded := None; processed_data := None |})
  = Raise (ReadError (py "Failed to load document")) /\
  existsb (has_type type_1) (readable (listing ascii_lower broken_zip)) = true.
Proof.
  pose proof (display_after_processing ascii_lower (py "a.zip") broken_zip
                {| last_uploaded := None; processed_data := None |}
                (or_introl eq_refl)) as H.
  destruct (run_script ascii_lower (py "a.zip") (Zip broken_zip)
              {| last_uploaded := None; processed_data := None |})
    as [[result|e] w1].
  - destruct H as [H _]. discriminate H.
  - destruct H as (message & He & Hm). split; [|reflexivity].
    cbn [fst]. rewrite He. f_equal. f_equal.
    assert (Hb : first_failure (listing ascii_lower broken_zip)
                 = Some (py "Failed to load document")) by reflexivity.
    congruence.
Defined.

(** ** The three kinds of rule *)

Lemma citem_eqb_eq i j : citem_eqb i j = true -> i = j.
Proof.
  destruct i, j; simpl; intros H; try discriminate; try reflexivity.
  apply N.eqb_eq in H. now subst.
Qed.

Lemma items_eqb_eq l : forall m, items_eqb l m = true -> l = m.
Proof.
  induction l as [|i l IH]; intros [|j m] H; simpl in H;
    try discriminate; [reflexivity|].
  apply andb_prop in H as [Hi Hl].
  apply citem_eqb_eq in Hi. apply IH in Hl. now subst.
Qed.

Lemma atom_eqb_eq a b : atom_eqb a b = true -> a = b.
Proof.
  destruct a as [c|n l], b as [d|n' l']; simpl; intros H; try discriminate.
  - apply N.eqb_eq in H. now subst.
  - apply andb_prop in H as [Hn Hl].
    apply Bool.eqb_prop in Hn. apply items_eqb_eq in Hl. now subst.
Qed.

Lemma regex_eqb_eq r : forall r', regex_eqb r r' = true -> r = r'.
Proof.
  induction r as [|a|g a|r1 IH1 r2 IH2|r IH|r IH]; intros r' H;
    destruct r'; simpl in H; try discriminate.
  - reflexivity.
  - apply atom_eqb_eq in H. now subst.
  - apply andb_prop in H as [Hg Ha].
    apply Bool.eqb_prop in Hg. apply atom_eqb_eq in Ha. now subst.
  - apply andb_prop in H as [H1 H2].
    apply IH1 in H1. apply IH2 in H2. now subst.
  - apply IH in H. now subst.
  - apply IH in H. now subst.
Qed.

Lemma compiles_to_eq pattern r :
  compiles_to pattern r = true ->
  compile pattern = Some {| p_regex := r; p_groups := 1 |}.
Proof.
  unfold compiles_to. destruct (compile pattern) as [[r0 n]|]; [|discriminate].
  simpl. intros H. apply andb_prop in H as [Hr Hn].
  apply regex_eqb_eq in Hr. apply Nat.eqb_eq in Hn. now subst.
Qed.

Lemma find_from_first l pre s : forall i,
  find_from l (pre ++ s) i = Some (i + List.length pre) ->
  forall u1 u2, pre = u1 ++ u2 -> u2 <> [] -> starts_with l (u2 ++ s) = false.
Proof.
  induction pre as [|c pre IH]; intros i H u1 u2 E Hne.
  - destruct u1; [|discriminate]. simpl in E. congruence.
  - change ((c :: pre) ++ s) with (c :: pre ++ s) in H.
    cbn [find_from] in H.
    destruct (starts_with l (c :: pre ++ s)) eqn:Es.
    + inversion H. simpl in *. lia.
    + destruct u1 as [|d u1].
      * simpl in E. subst u2. exact Es.
      * inversion E; subst.
        apply (IH (S i)) with (u1 := u1); [|reflexivity|assumption].
        rewrite H. f_equal. rewrite length_app. simpl. rewrite length_app. lia.
Qed.

(** The value a rule stores when its pattern, anchored on [label],
    matches at the first occurrence of the label with group [g]. *)
Lemma rule_value_at_label pattern label r pre tail rest g :
  compile pattern = Some {| p_regex := lit_then label r; p_groups := 1 |} ->
  find label (pre ++ label ++ tail) = Some (List.length pre) ->
  rmatch (lit_then label r) (label ++ tail) None accept = Some (rest, Some g) ->
  rule_value pattern (pre ++ label ++ tail) = PyStr (normalize g).
Proof.
  intros Hc Hfind Hm. unfold rule_value, search. rewrite Hc.
  rewrite search_from_skip.
  - now rewrite (search_from_here _ _ _ rest (Some g)).
  - intros u1 u2 E Hne. simpl p_regex. rewrite rmatch_lit_then.
    now rewrite (find_from_first label pre (label ++ tail) 0 Hfind u1 u2 E Hne).
Qed.

(** X9. A line rule gives the rest of the line that follows the first
    occurrence of its label: on a text where that occurrence is followed
    by whitespace and then by a line [g] that starts with a visible
    character, the field holds [g] normalised.  The whitespace may hold
    line breaks, so the value can come from a later line. *)
Theorem line_rule_value doc_type field pattern pre ws g rest w :
  In (field, pattern) (patterns_of doc_type) ->
  line_rule field pattern = true ->
  find (raw field) (pre ++ raw field ++ ws ++ g ++ rest)
    = Some (List.length pre) ->
  spaces ws -> one_line g -> clean_head g -> line_end rest ->
  exists data,
    extract_data_by_type (pre ++ raw field ++ ws ++ g ++ rest) doc_type w
      = (Return data, w) /\
    getitem data field = Some (PyStr (normalize g)).
Proof.
  intros Hin Hrule Hpre Hws Hg Hc Hend.
  eexists. split; [apply extract_data_by_type_run|].
  rewrite (getitem_record_of _ _ _ _ Hin). f_equal.
  apply compiles_to_eq in Hrule.
  apply (rule_value_at_label pattern (raw field)
           (RSeq (RPlus true sp) line_group) pre (ws ++ g ++ rest) rest g).
  - exact Hrule.
  - exact Hpre.
  - now apply single_line_on.
Qed.

Lemma line_rule_value_witness :
  line_fields type_1 =
    ["Inspector"; "Project Team PIC"; "Project Team Present";
     "Contractor PIC"; "Contractor Present"; "Issue Date";
     "Inspection Date"; "Report Date"; "Handover Date"]%string /\
  line_fields type_2 =
    ["Document No."; "Audit Title"; "Site Name"; "Contractor Present";
     "Project PIC Present"; "Inspected by"; "Inspection Date";
     "Prepared by"]%string /\
  exists data,
    extract_data_by_type
      (py "Report\n" ++ raw "Issue Date" ++ py " \n" ++ py "12 May  2024"
         ++ py "\nReport Date")
      type_1 {| last_uploaded := None; processed_data := None |}
    = (Return data, {| last_uploaded := None; processed_data := None |}) /\
    getitem data "Issue Date" = Some (PyStr (normalize (py "12 May  2024"))).
Proof.
  split; [reflexivity|]. split; [reflexivity|].
  apply (line_rule_value type_1 "Issue Date" "Issue Date\s+([^\n]+)").
  - do 8 right. left. reflexivity.
  - reflexivity.
  - reflexivity.
  - split; [discriminate|reflexivity].
  - split; [discriminate|reflexivity].
  - reflexivity.
  - reflexivity.
Defined.

(** ** Bounded captures *)

Lemma atom_match_any c : atom_match any c = true.
Proof. simpl. now destruct (isspace c). Qed.

(** The shortest run after which the continuation succeeds is the one
    [a+?] returns. *)
Lemma plus_lazy_shortest a u : forall s' g k res,
  u <> [] -> forallb (atom_match a) u = true ->
  (forall u1 u2, u = u1 ++ u2 -> u1 <> [] -> u2 <> [] ->
                 k (u2 ++ s') g = None) ->
  k s' g = Some res -> plus_lazy a (u ++ s') g k = Some res.
Proof.
  induction u as [|c u IH]; intros s' g k res Hne Hall Hfail Hk; [congruence|].
  simpl in Hall. apply andb_prop in Hall as [Hc Hall].
  simpl. rewrite Hc.
  destruct u as [|d u].
  - simpl. now rewrite Hk.
  - rewrite (Hfail [c] (d :: u)) by (reflexivity || discriminate).
    apply IH; try assumption; [discriminate|].
    intros u1 u2 E H1 H2. apply (Hfail (c :: u1) u2); try assumption.
    + simpl. now rewrite E.
    + discriminate.
Qed.

Lemma suffix_not_spaces (g u1 u2 : pystr) :
  g = u1 ++ u2 -> u2 <> [] -> clean_head (rev g) ->
  forallb isspace u2 = true -> False.
Proof.
  intros -> Hne Hc Hall. rewrite rev_app_distr in Hc.
  destruct (rev u2) as [|c t] eqn:E.
  - apply (f_equal (@rev N)) in E. rewrite rev_involutive in E. now subst.
  - simpl in Hc. rewrite forallb_forall in Hall.
    assert (Hin : In c u2).
    { apply in_rev. rewrite E. now left. }
    apply Hall in Hin. congruence.
Qed.

Lemma closing_on closing w2 rest g0 :
  spaces w2 -> stops sp (closing ++ rest) = true ->
  rmatch (RSeq (RPlus true sp) (lit_then closing REmpty))
         (w2 ++ closing ++ rest) g0 accept
  = Some (rest, g0).
Proof.
  intros Hw Hstop. cbn [rmatch]. apply plus_greedy_longest.
  - apply Hw.
  - now apply spaces_run.
  - exact Hstop.
  - now rewrite rmatch_lit_then, starts_with_app, skipn_consumed.
Qed.

Lemma closing_shape closing s g0 res :
  rmatch (RSeq (RPlus true sp) (lit_then closing REmpty)) s g0 accept
    = Some res ->
  exists u x, s = u ++ closing ++ x /\ spaces u.
Proof.
  cbn [rmatch]. intros H.
  apply plus_greedy_sound in H as (u & s1 & -> & Hne & Hall & H).
  apply lit_then_shape in H as (x & -> & _).
  exists u, x. split; [reflexivity|]. now apply run_spaces.
Qed.

(** Inside the value, the closing label cannot be reached. *)
Lemma closing_not_yet closing g w2 rest u1 u2 g0 :
  border_free closing = true -> contains closing (g ++ w2) = false ->
  clean_head (rev g) -> g = u1 ++ u2 -> u2 <> [] ->
  rmatch (RSeq (RPlus true sp) (lit_then closing REmpty))
         (u2 ++ w2 ++ closing ++ rest) g0 accept
  = None.
Proof.
  intros Hb Hc Hlast Hg Hne.
  destruct (rmatch _ (u2 ++ w2 ++ closing ++ rest) g0 accept) as [res|] eqn:E;
    [exfalso|reflexivity].
  apply closing_shape in E as (u & x & E & [_ Hu]).
  apply app_eq_app in E as [l [[E1 E2]|[E1 E2]]].
  - destruct l as [|c l].
    + rewrite app_nil_r in E1. subst u2.
      exact (suffix_not_spaces _ _ _ Hg Hne Hlast Hu).
    + assert (Hs : starts_with closing (((c :: l) ++ w2) ++ closing ++ rest)
                   = true).
      { rewrite <- app_assoc, <- E2. apply starts_with_app. }
      rewrite (no_early_occurrence closing (g ++ w2) rest Hb Hc
                 (u1 ++ u) ((c :: l) ++ w2)) in Hs; [discriminate| |discriminate].
      rewrite Hg, E1. now rewrite <- !app_assoc.
  - subst u. rewrite forallb_app in Hu. apply andb_prop in Hu as [Hu _].
    exact (suffix_not_spaces _ _ _ Hg Hne Hlast Hu).
Qed.

(** [label\s+([\s\S]+?)\s+closing] at a label followed by whitespace, a
    value that starts and ends with a visible character and does not
    reach the closing label, whitespace and the closing label. *)
Lemma bounded_on label closing w1 g w2 rest :
  border_free closing = true -> stops sp (closing ++ rest) = true ->
  spaces w1 -> g <> [] -> clean_head g -> clean_head (rev g) ->
  spaces w2 -> contains closing (g ++ w2) = false ->
  rmatch (bounded label closing)
         (label ++ w1 ++ g ++ w2 ++ closing ++ rest) None accept
  = Some (rest, Some g).
Proof.
  intros Hb Hstop Hw1 Hne Hfirst Hlast Hw2 Hc. unfold bounded.
  rewrite rmatch_lit_then, starts_with_app, skipn_consumed.
  cbn [rmatch]. apply plus_greedy_longest.
  - apply Hw1.
  - now apply spaces_run.
  - now apply stops_sp.
  - apply plus_lazy_shortest.
    + exact Hne.
    + apply forallb_forall. intros c _. apply atom_match_any.
    + intros u1 u2 E H1 H2.
      apply (closing_not_yet closing g w2 rest u1 u2); assumption.
    + rewrite firstn_consumed. now apply closing_on.
Qed.

Lemma bounded_rules_checked doc_type : bounded_checked doc_type = true.
Proof.
  unfold bounded_checked, bounded_rules, patterns_of.
  destruct (value_eqb doc_type type_1); vm_compute; reflexivity.
Qed.

(** X10. A bounded capture gives what stands between the first
    occurrence of its label and the label that closes it, with the line
    breaks and runs of whitespace inside turned into single spaces: the
    value [g] may span several lines, as long as the closing label does
    not occur before its end. *)
Theorem bounded_rule_value doc_type field closing pre w1 g w2 rest w :
  In (field, closing) (bounded_rules doc_type) ->
  find (raw field) (pre ++ raw field ++ w1 ++ g ++ w2 ++ raw closing ++ rest)
    = Some (List.length pre) ->
  spaces w1 -> g <> [] -> clean_head g -> clean_head (rev g) ->
  spaces w2 -> contains (raw closing) (g ++ w2) = false ->
  exists data,
    extract_data_by_type
      (pre ++ raw field ++ w1 ++ g ++ w2 ++ raw closing ++ rest) doc_type w
      = (Return data, w) /\
    getitem data field = Some (PyStr (normalize g)).
Proof.
  intros Hin Hfind Hw1 Hne Hfirst Hlast Hw2 Hc.
  pose proof (bounded_rules_checked doc_type) as Hchk.
  unfold bounded_checked in Hchk. rewrite forallb_forall in Hchk.
  specialize (Hchk _ Hin). simpl in Hchk.
  apply andb_prop in Hchk as [Hchk Hhead].
  apply andb_prop in Hchk as [Hrule Hb].
  apply existsb_exists in Hrule as ([field' pattern] & Htbl & Hrule).
  apply andb_prop in Hrule as [Hf Hrule].
  apply String.eqb_eq in Hf. subst field'.
  apply compiles_to_eq in Hrule.
  eexists. split; [apply extract_data_by_type_run|].
  rewrite (getitem_record_of _ _ _ _ Htbl). f_equal.
  apply (rule_value_at_label pattern (raw field) _ pre
           (w1 ++ g ++ w2 ++ raw closing ++ rest) rest g Hrule Hfind).
  apply bounded_on; try assumption.
  destruct (raw closing) as [|c l]; [discriminate|].
  unfold stops. cbn [app]. now rewrite atom_match_sp.
Qed.

Lemma bounded_rule_value_witness :
  two_line_store_page =
    py "Weekly visit\n" ++ raw "Store ID and Name" ++ py "\n"
      ++ py "001 - Main St\nNorth Wing" ++ py "\n" ++ raw "Tracker"
      ++ py "\nINS-2024\nInspector\nJohn Smith" /\
  exists data,
    extract_data_by_type two_line_store_page type_1
      {| last_uploaded := None; processed_data := None |}
    = (Return data, {| last_uploaded := None; processed_data := None |}) /\
    getitem data "Store ID and Name"
      = Some (PyStr (normalize (py "001 - Main St\nNorth Wing"))) /\
    normalize (py "001 - Main St\nNorth Wing") = py "001 - Main St North Wing".
Proof.
  split; [reflexivity|].
  destruct (bounded_rule_value type_1 "Store ID and Name" "Tracker"
              (py "Weekly visit\n") (py "\n") (py "001 - Main St\nNorth Wing")
              (py "\n") (py "\nINS-2024\nInspector\nJohn Smith")
              {| last_uploaded := None; processed_data := None |})
    as (data & Hrun & Hget).
  - left. reflexivity.
  - reflexivity.
  - split; [discriminate|reflexivity].
  - discriminate.
  - reflexivity.
  - reflexivity.
  - split; [discriminate|reflexivity].
  - reflexivity.
  - exists data. split; [exact Hrun|]. split; [exact Hget|reflexivity].
Defined.

(** ** The look-ahead rule *)

Lemma compile_inspection :
  compile "([^\n]+)(?=\s+Store ID and Name)" =
  Some {| p_regex := before_marker (py "Store ID and Name"); p_groups := 1 |}.
Proof. apply compiles_to_eq. reflexivity. Qed.

Lemma before_marker_on marker g w rest :
  one_line g -> spaces w -> line_end w ->
  stops sp (marker ++ rest) = true ->
  rmatch (before_marker marker) (g ++ w ++ marker ++ rest) None accept
  = Some (w ++ marker ++ rest, Some g).
Proof.
  intros Hg Hw Hnl Hstop. unfold before_marker. cbn [rmatch].
  apply plus_greedy_longest.
  - apply Hg.
  - now apply one_line_run.
  - apply stops_not_nl; [apply Hw|exact Hnl].
  - rewrite firstn_consumed.
    change (match rmatch (RSeq (RPlus true sp) (lit_then marker REmpty))
                         (w ++ marker ++ rest) (Some g) accept with
            | Some (_, g') => accept (w ++ marker ++ rest) g'
            | None => None
            end = Some (w ++ marker ++ rest, Some g)).
    now rewrite closing_on.
Qed.

Lemma before_marker_shape marker s res :
  rmatch (before_marker marker) s None accept = Some res ->
  exists cap ws x,
    s = cap ++ ws ++ marker ++ x /\ one_line cap /\ spaces ws.
Proof.
  unfold before_marker. cbn [rmatch]. intros H.
  apply plus_greedy_sound in H as (cap & s1 & -> & Hne & Hall & H).
  change (fun (s' : pystr) (g' : option pystr) => Some (s', g'))
    with accept in H.
  destruct (plus_greedy sp s1 _ _) as [res'|] eqn:E; [|discriminate].
  assert (E' : rmatch (RSeq (RPlus true sp) (lit_then marker REmpty)) s1
                 (Some (firstn (List.length (cap ++ s1) - List.length s1)
                               (cap ++ s1))) accept = Some res') by exact E.
  apply closing_shape in E' as (ws & x & -> & Hws).
  exists cap, ws, x. split; [reflexivity|]. split; [|exact Hws].
  now apply run_one_line.
Qed.

Lemma one_line_no_break (x y : pystr) :
  forallb (fun c => negb (c =? 10)%N) (x ++ 10%N :: y) = true -> False.
Proof.
  rewrite forallb_app. intros H. apply andb_prop in H as [_ H].
  simpl in H. discriminate.
Qed.

Lemma ends_with_break (pre u1 u2 : pystr) :
  at_line_start pre -> pre = u1 ++ u2 -> u2 <> [] ->
  exists v, u2 = v ++ [10%N].
Proof.
  unfold at_line_start. intros H -> Hne. rewrite rev_app_distr in H.
  destruct (rev u2) as [|c t] eqn:E.
  - apply (f_equal (@rev N)) in E. rewrite rev_involutive in E. now subst.
  - simpl in H. subst c. exists (rev t).
    apply (f_equal (@rev N)) in E. rewrite rev_involutive in E.
    now rewrite E.
Qed.

(** No match of the look-ahead rule starts before the line [g]. *)
Lemma before_marker_early marker pre g w rest u1 u2 :
  border_free marker = true -> contains marker (pre ++ g ++ w) = false ->
  at_line_start pre -> g <> [] -> clean_head g ->
  pre = u1 ++ u2 -> u2 <> [] ->
  rmatch (before_marker marker) (u2 ++ g ++ w ++ marker ++ rest) None accept
  = None.
Proof.
  intros Hb Hc Hstart Hne Hhead Hpre Hu2.
  destruct (rmatch _ (u2 ++ g ++ w ++ marker ++ rest) None accept)
    as [res|] eqn:E; [exfalso|reflexivity].
  apply before_marker_shape in E as (cap & ws & x & E & [_ Hcap] & [_ Hws]).
  destruct (ends_with_break pre u1 u2 Hstart Hpre Hu2) as [v Hv].
  assert (Hearly : forall l,
            l ++ g ++ w <> [] ->
            (exists a, pre ++ g ++ w = a ++ l ++ g ++ w) ->
            starts_with marker (l ++ g ++ w ++ marker ++ rest) = false).
  { intros l Hl [a Ea].
    pose proof (no_early_occurrence marker (pre ++ g ++ w) rest Hb Hc
                  a (l ++ g ++ w) Ea Hl) as H.
    now rewrite <- !app_assoc in H. }
  apply app_eq_app in E as [l [[E1 E2]|[E1 E2]]].
  - apply app_eq_app in E2 as [l2 [[E3 E4]|[E3 E4]]].
    + destruct l2 as [|d l2].
      * simpl in E4.
        assert (Hs : starts_with marker ([] ++ g ++ w ++ marker ++ rest) = true).
        { simpl. rewrite E4. apply starts_with_app. }
        rewrite Hearly in Hs; [discriminate| |].
        -- simpl. destruct g; [congruence|discriminate].
        -- exists pre. reflexivity.
      * destruct g as [|c g]; [congruence|].
        simpl in E4. inversion E4; subst d.
        simpl in Hhead. rewrite E3, forallb_app in Hws.
        apply andb_prop in Hws as [_ Hws]. simpl in Hws.
        rewrite Hhead in Hws. discriminate.
    + assert (Hs : starts_with marker (l2 ++ g ++ w ++ marker ++ rest) = true).
      { rewrite <- E4. apply starts_with_app. }
      rewrite Hearly in Hs; [discriminate| |].
      * destruct g; [congruence|]. destruct l2; discriminate.
      * exists (u1 ++ cap ++ ws). rewrite Hpre, E1, E3.
        now rewrite <- !app_assoc.
  - rewrite E1, Hv, <- app_assoc in Hcap. simpl in Hcap.
    exact (one_line_no_break _ _ Hcap).
Qed.

(** X11. [Inspection] is the line that precedes the marker
    [Store ID and Name]: on a text where a line [g] that starts with a
    visible character is followed by a line break, possibly more
    whitespace, and the first occurrence of the marker, the field holds
    [g] normalised, whatever stands on the lines before. *)
Theorem inspection_rule_value pre g ws rest w :
  at_line_start pre -> one_line g -> clean_head g ->
  spaces ws -> line_end ws ->
  contains (py "Store ID and Name") (pre ++ g ++ ws) = false ->
  exists data,
    extract_data_by_type
      (pre ++ g ++ ws ++ py "Store ID and Name" ++ rest) type_1 w
      = (Return data, w) /\
    getitem data "Inspection" = Some (PyStr (normalize g)).
Proof.
  intros Hstart Hg Hhead Hws Hnl Hc.
  eexists. split; [apply extract_data_by_type_run|].
  rewrite (getitem_record_of _ _ "Inspection"
             "([^\n]+)(?=\s+Store ID and Name)") by (left; reflexivity).
  f_equal. unfold rule_value, search. rewrite compile_inspection.
  rewrite search_from_skip.
  - rewrite (search_from_here _ _ _
               (ws ++ py "Store ID and Name" ++ rest) (Some g));
      [reflexivity|].
    now apply before_marker_on.
  - intros u1 u2 E Hne. simpl p_regex.
    apply (before_marker_early _ pre g ws rest u1 u2); try assumption;
      [reflexivity|apply Hg].
Qed.

Lemma inspection_rule_value_witness :
  exists data,
    extract_data_by_type
      (py "ACME Retail\n" ++ py "Jane  Doe " ++ py "\n\n"
         ++ py "Store ID and Name" ++ py "\n001 - Main St\nTracker")
      type_1 {| last_uploaded := None; processed_data := None |}
    = (Return data, {| last_uploaded := None; processed_data := None |}) /\
    getitem data "Inspection" = Some (PyStr (normalize (py "Jane  Doe "))) /\
    normalize (py "Jane  Doe ") = py "Jane Doe".
Proof.
  destruct (inspection_rule_value (py "ACME Retail\n") (py "Jane  Doe ")
              (py "\n\n") (py "\n001 - Main St\nTracker")
              {| last_uploaded := None; processed_data := None |})
    as (data & Hrun & Hget).
  - reflexivity.
  - split; [discriminate|reflexivity].
  - reflexivity.
  - split; [discriminate|reflexivity].
  - reflexivity.
  - reflexivity.
  - exists data. split; [exact Hrun|]. split; [exact Hget|reflexivity].
Defined.

(** ** The loop of [streamlit.py] *)

Section Streamlit.

Variable total_files : nat.

Let body := fun '(all_data_type_1, all_data_type_2, log) '(i, (pdf_name, p)) =>
  let log := log ++ [Status pdf_name i total_files] in
  match p with
  | Unreadable message =>
      ret (all_data_type_1, all_data_type_2,
           log ++ [Error pdf_name (ReadFailure message);
                   Progress i total_files])
  | Readable text =>
      attempt <- try (
        doc_type <- detect_document_type text ;;
        match doc_type with
        | PyNone => ret None
        | _ =>
            data <- extract_data_by_type text doc_type ;;
            ret (Some (doc_type,
                       setitem data "Source File" (PyStr pdf_name)))
        end) ;;
      match attempt with
      | Return None =>
          ret (all_data_type_1, all_data_type_2,
               log ++ [Warning pdf_name])
      | Return (Some (doc_type, data)) =>
          if value_eqb doc_type type_1
          then ret (all_data_type_1 ++ [data], all_data_type_2,
                    log ++ [Progress i total_files])
          else ret (all_data_type_1, all_data_type_2 ++ [data],
                    log ++ [Progress i total_files])
      | Raise e =>
          ret (all_data_type_1, all_data_type_2,
               log ++ [Error pdf_name (Raised e);
                       Progress i total_files])
      end
  end.

Lemma streamlit_body_run l1 l2 log i pdf_name p w :
  body (l1, l2, log) (i, (pdf_name, p)) w =
  (Return (l1 ++ bucket type_1 (readable [(pdf_name, p)]),
           l2 ++ bucket type_2 (readable [(pdf_name, p)]),
           log ++ events_of total_files (i, (pdf_name, p))), w).
Proof.
  unfold body. destruct p as [text|message].
  - unfold try, bind. rewrite detect_document_type_run.
    fold (doc_type_of text).
    unfold readable. cbn [flat_map app]. rewrite !bucket_cons. cbn [snd].
    unfold events_of.
    destruct (doc_type_of_cases text) as [E|[E|E]]; rewrite E.
    + unfold type_2 at 1. rewrite extract_data_by_type_run.
      rewrite entry_record_setitem. unfold ret.
      change (value_eqb type_2 type_1) with false.
      change (value_eqb type_2 type_2) with true.
      change (value_eqb type_2 PyNone) with false.
      cbv iota. unfold bucket. cbn [filter map].
      now rewrite app_nil_r, <- app_assoc.
    + unfold type_1 at 1. rewrite extract_data_by_type_run.
      rewrite entry_record_setitem. unfold ret.
      change (value_eqb type_1 type_1) with true.
      change (value_eqb type_1 type_2) with false.
      change (value_eqb type_1 PyNone) with false.
      cbv iota. unfold bucket. cbn [filter map].
      now rewrite app_nil_r, <- app_assoc.
    + unfold ret.
      change (value_eqb PyNone type_1) with false.
      change (value_eqb PyNone type_2) with false.
      change (value_eqb PyNone PyNone) with true.
      cbv iota. unfold bucket. cbn [filter map].
      now rewrite !app_nil_r, <- app_assoc.
  - unfold ret, readable, bucket, events_of. cbn [flat_map app filter map].
    now rewrite !app_nil_r, <- app_assoc.
Qed.

Lemma readable_cons entry rest :
  readable (entry :: rest) = readable [entry] ++ readable rest.
Proof. unfold readable. cbn [flat_map]. now rewrite app_nil_r. Qed.

Lemma streamlit_loop_run pdf_files : forall k l1 l2 log w,
  for_each (enumerate k pdf_files) (l1, l2, log) body w =
  (Return (l1 ++ bucket type_1 (readable pdf_files),
           l2 ++ bucket type_2 (readable pdf_files),
           log ++ flat_map (events_of total_files) (enumerate k pdf_files)),
   w).
Proof.
  induction pdf_files as [|[pdf_name p] rest IH]; intros k l1 l2 log w.
  - cbn [enumerate for_each flat_map]. unfold ret, readable, bucket.
    cbn [flat_map filter map]. now rewrite !app_nil_r.
  - cbn [enumerate flat_map].
    change (for_each ((k, (pdf_name, p)) :: enumerate (S k) rest)
                     (l1, l2, log) body w)
      with (bind (body (l1, l2, log) (k, (pdf_name, p)))
                 (fun st' => for_each (enumerate (S k) rest) st' body) w).
    unfold bind at 1. rewrite streamlit_body_run. rewrite IH.
    rewrite (readable_cons (pdf_name, p) rest), !bucket_app.
    now rewrite <- !app_assoc.
Qed.

End Streamlit.

Lemma streamlit_run pdf_files w :
  streamlit_loop pdf_files w =
  (Return (bucket type_1 (readable pdf_files),
           bucket type_2 (readable pdf_files),
           ([Found (List.length pdf_files)]
            ++ flat_map (events_of (List.length pdf_files))
                        (enumerate 1 pdf_files))
           ++ [Complete]), w).
Proof.
  unfold streamlit_loop. cbv zeta. unfold bind at 1.
  rewrite (streamlit_loop_run (List.length pdf_files)). reflexivity.
Qed.

Lemma enumerate_app {A} (a b : list A) : forall k,
  enumerate k (a ++ b) = enumerate k a ++ enumerate (k + List.length a) b.
Proof.
  induction a as [|x a IH]; intros k; simpl.
  - now rewrite Nat.add_0_r.
  - rewrite IH. do 3 f_equal. lia.
Qed.

Lemma progress_index total pdf_files : forall k j t,
  In (Progress j t) (flat_map (events_of total) (enumerate k pdf_files)) ->
  k <= j < k + List.length pdf_files.
Proof.
  induction pdf_files as [|[pdf_name p] rest IH]; intros k j t H;
    [destruct H|].
  cbn [enumerate flat_map] in H. apply in_app_or in H as [H|H].
  - assert (j = k); [|simpl; lia].
    unfold events_of in H. destruct H as [H|H]; [discriminate|].
    destruct p as [text|message].
    + destruct (value_eqb (doc_type_of text) PyNone);
        destruct H as [H|[]]; [discriminate|congruence].
    + destruct H as [H|[H|[]]]; [discriminate|congruence].
  - apply IH in H. simpl. lia.
Qed.

(** X12. The loop of [streamlit.py] never raises, not even when an
    entry cannot be read, and its two lists are those the batch loop of
    [app.py] returns for the entries that could be read. *)
Theorem streamlit_loop_same_records pdf_files w :
  exists all_data_type_1 all_data_type_2 log,
    streamlit_loop pdf_files w
      = (Return (all_data_type_1, all_data_type_2, log), w) /\
    process_pdf_files (as_pages (readable pdf_files)) w
      = (Return (all_data_type_1, all_data_type_2), w).
Proof.
  eexists _, _, _. split; [apply streamlit_run|].
  rewrite process_pdf_files_run, first_failure_as_pages, readable_as_pages.
  reflexivity.
Qed.

(** X17. What [streamlit.py] shows after its loop: the table of a type
    exactly when some entry that could be read has that type, and the
    notice that no data was extracted exactly when no such entry holds
    a marker; an entry that cannot be read takes nothing away from the
    tables of the others. *)
Theorem streamlit_display pdf_files w :
  exists all_data_type_1 all_data_type_2 log,
    streamlit_loop pdf_files w
      = (Return (all_data_type_1, all_data_type_2, log), w) /\
    shows_type_1 (display_of (all_data_type_1, all_data_type_2))
    = existsb (has_type type_1) (readable pdf_files) /\
    shows_type_2 (display_of (all_data_type_1, all_data_type_2))
    = existsb (has_type type_2) (readable pdf_files) /\
    shows_no_data (display_of (all_data_type_1, all_data_type_2))
    = forallb (has_type PyNone) (readable pdf_files).
Proof.
  eexists _, _, _. split; [apply streamlit_run|].
  apply display_of_buckets.
Qed.

(** X13. The progress bar is not advanced for an entry of unknown type
    ([continue] skips the update): the bar reaches its full length
    exactly when the last entry of the archive is not such an entry. *)
Theorem streamlit_progress_complete init last w :
  exists all_data_type_1 all_data_type_2 log,
    streamlit_loop (init ++ [last]) w
      = (Return (all_data_type_1, all_data_type_2, log), w) /\
    (In (Progress (List.length (init ++ [last])) (List.length (init ++ [last])))
        log
     <-> unknown last = false).
Proof.
  eexists _, _, _. split; [apply streamlit_run|].
  set (n := List.length (init ++ [last])).
  assert (Hn : n = 1 + List.length init).
  { unfold n. rewrite length_app. simpl. lia. }
  rewrite enumerate_app, flat_map_app. cbn [enumerate flat_map].
  rewrite app_nil_r, <- Hn.
  destruct last as [pdf_name p]. split.
  - intros H. apply in_app_or in H as [H|[H|[]]]; [|discriminate].
    apply in_app_or in H as [[H|[]]|H]; [discriminate|].
    apply in_app_or in H as [H|H].
    + apply progress_index in H. lia.
    + unfold events_of in H. unfold unknown. cbn [snd].
      destruct H as [H|H]; [discriminate|].
      destruct p as [text|message]; [|reflexivity].
      destruct (value_eqb (doc_type_of text) PyNone); [|reflexivity].
      destruct H as [H|[]]. discriminate.
  - intros H. apply in_or_app. left. apply in_or_app. right.
    apply in_or_app. right. unfold events_of. right.
    unfold unknown in H. cbn [snd] in H.
    destruct p as [text|message].
    + rewrite H. now left.
    + right. now left.
Qed.

Lemma warnings_app a b : warnings (a ++ b) = warnings a ++ warnings b.
Proof. unfold warnings. apply flat_map_app. Qed.

Lemma errors_app a b : errors (a ++ b) = errors a ++ errors b.
Proof. unfold errors. apply flat_map_app. Qed.

Lemma warnings_events total pdf_files : forall k,
  warnings (flat_map (events_of total) (enumerate k pdf_files))
  = map fst (filter unknown pdf_files).
Proof.
  induction pdf_files as [|[pdf_name p] rest IH]; intros k; [reflexivity|].
  cbn [enumerate flat_map filter]. rewrite warnings_app, IH.
  destruct p as [text|message]; [|reflexivity].
  change (unknown (pdf_name, Readable text))
    with (value_eqb (doc_type_of text) PyNone).
  unfold events_of.
  now destruct (value_eqb (doc_type_of text) PyNone).
Qed.

Lemma errors_events total pdf_files : forall k,
  errors (flat_map (events_of total) (enumerate k pdf_files))
  = unreadable pdf_files.
Proof.
  induction pdf_files as [|[pdf_name p] rest IH]; intros k; [reflexivity|].
  cbn [enumerate flat_map]. rewrite errors_app, IH.
  unfold unreadable at 2. cbn [flat_map]. fold (unreadable rest).
  unfold events_of.
  destruct p as [text|message]; [|reflexivity].
  now destruct (value_eqb (doc_type_of text) PyNone).
Qed.

(** X14. The loop of [streamlit.py] warns once about each entry that
    was read and holds neither marker, in the order of the archive, and
    reports one error for each entry that could not be read and no
    other: the engine itself never gives rise to an error message. *)
Theorem streamlit_warnings_errors pdf_files w :
  exists all_data_type_1 all_data_type_2 log,
    streamlit_loop pdf_files w
      = (Return (all_data_type_1, all_data_type_2, log), w) /\
    warnings log = map fst (filter unknown pdf_files) /\
    errors log = unreadable pdf_files.
Proof.
  eexists _, _, _. split; [apply streamlit_run|].
  rewrite !warnings_app, !errors_app, warnings_events, errors_events.
  change (warnings [Found (List.length pdf_files)]) with (@nil pystr).
  change (warnings [Complete]) with (@nil pystr).
  change (errors [Found (List.length pdf_files)])
    with (@nil (pystr * failure)).
  change (errors [Complete]) with (@nil (pystr * failure)).
  cbn [app]. now rewrite !app_nil_r.
Qed.

(** ** A compound rule and the rule of its section *)










